(** * The judge session of api/v2.js

    A shallow embedding of [get_job] and of the [/judge] WebSocket endpoint
    of [src/api/src/api/v2.js]: the JSON values the handlers inspect, the
    request validation, the closure variables of one session, and the
    handlers themselves written in a small monad whose suspension points are
    the [await]s of the source. *)

From Stdlib Require Import ZArith List String Bool Lia.
Import ListNotations.
Local Open Scope string_scope.
Local Open Scope list_scope.
Local Open Scope Z_scope.

(** ** JavaScript values *)

(** What [JSON.parse] can return, plus [undefined] (the value of a property
    that is absent).  Numbers are the integers: every quantity the handlers
    compare or add is a count of milliseconds, bytes or tests.  An object is
    the list of its properties, each name once. *)
#[warnings="-register-all"]
Inductive JsVal : Type :=
| VUndef
| VNull
| VBool (b : bool)
| VNum (n : Z)
| VStr (s : string)
| VArr (items : list JsVal)
| VObj (fields : list (string * JsVal)).

(** [!!v] *)
Definition truthy (v : JsVal) : bool :=
  match v with
  | VUndef | VNull => false
  | VBool b => b
  | VNum n => negb (n =? 0)
  | VStr s => negb (s =? "")%string
  | VArr _ | VObj _ => true
  end.

(** [a || b] *)
Definition js_or (a b : JsVal) : JsVal := if truthy a then a else b.

(** [a ?? b] *)
Definition js_nullish (a b : JsVal) : JsVal :=
  match a with
  | VUndef | VNull => b
  | _ => a
  end.

(** [typeof v === 'string'] and [typeof v === 'number'] *)
Definition is_string (v : JsVal) : bool :=
  match v with VStr _ => true | _ => false end.

Definition is_number (v : JsVal) : bool :=
  match v with VNum _ => true | _ => false end.

Fixpoint assoc (k : string) (fs : list (string * JsVal)) : JsVal :=
  match fs with
  | [] => VUndef
  | (k', v) :: fs' => if (k =? k')%string then v else assoc k fs'
  end.

(** [v.k] for a [v] that is neither [null] nor [undefined]: an own property
    of an object, [undefined] on anything else (none of the names the
    handlers read is a built-in property of a string, number or array). *)
Definition prop (v : JsVal) (k : string) : JsVal :=
  match v with
  | VObj fs => assoc k fs
  | _ => VUndef
  end.

(** ** Error values and template literals *)

(** A template literal, kept unrendered: its literal chunks and the values
    interpolated between them. *)
Inductive Piece : Type :=
| Lit (s : string)
| Interp (v : JsVal).

Definition Text := list Piece.

(** A thrown or rejected value; the handlers only ever read [.message].
    Where the source logs [`${error}`] or [job.uuid], the logged text below
    keeps the literal prefix and the message. *)
Record Exn : Type := { message : Text }.

Definition error (t : Text) : Exn := {| message := t |}.

Inductive Outcome (A : Type) : Type :=
| Resolved (a : A)
| Rejected (e : Exn).
Arguments Resolved {A} a.
Arguments Rejected {A} e.

(** ** Runtimes and jobs *)

Record PerStage (A : Type) : Type := { for_compile : A; for_run : A }.
Arguments for_compile {A} _.
Arguments for_run {A} _.

(** The fields of a runtime record that v2.js reads. *)
Record Runtime : Type := {
  language : string;
  version_raw : string;
  compiled : bool;
  timeouts : PerStage Z;
  cpu_times : PerStage Z;
  memory_limits : PerStage Z
}.

(** The argument of [new Job({...})]. *)
Record Job : Type := {
  runtime : Runtime;
  args : JsVal;
  stdin : JsVal;
  files : list JsVal;
  job_timeouts : PerStage JsVal;
  job_cpu_times : PerStage JsVal;
  job_memory_limits : PerStage JsVal
}.

Inductive Constraint : Type := MemoryLimit | Timeout | CpuTime.
Inductive Stage : Type := Compile | Run.

Definition constraint_str (c : Constraint) : string :=
  match c with
  | MemoryLimit => "memory_limit"
  | Timeout => "timeout"
  | CpuTime => "cpu_time"
  end.

Definition stage_str (t : Stage) : string :=
  match t with Compile => "compile" | Run => "run" end.

(** [`${type}_${constraint}`] *)
Definition constraint_name (c : Constraint) (t : Stage) : string :=
  (stage_str t ++ "_" ++ constraint_str c)%string.

Definition at_stage {A} (t : Stage) (p : PerStage A) : A :=
  match t with Compile => for_compile p | Run => for_run p end.

(** [rt[`${constraint}s`][type]] *)
Definition configured_limit (rt : Runtime) (c : Constraint) (t : Stage) : Z :=
  at_stage t
    match c with
    | MemoryLimit => memory_limits rt
    | Timeout => timeouts rt
    | CpuTime => cpu_times rt
    end.

(** The loop nest of get_job, outer loop first. *)
Definition constraint_pairs : list (Constraint * Stage) :=
  flat_map (fun c => map (fun t => (c, t)) [Compile; Run])
           [MemoryLimit; Timeout; CpuTime].

(** One iteration of the inner loop: [None] is [continue] (or falling off the
    end of the body), [Some e] is [return reject(e)]. *)
Definition check_constraint (rt : Runtime) (body : JsVal)
    (ct : Constraint * Stage) : option Exn :=
  let '(c, t) := ct in
  let name := constraint_name c t in
  let constraint_value := prop body name in
  let limit := configured_limit rt c t in
  if negb (truthy constraint_value) then None
  else match constraint_value with
       | VNum n =>
           if limit <=? 0 then None
           else if n >? limit then
             Some (error [Lit name; Lit " cannot exceed the configured limit of ";
                          Interp (VNum limit)])
           else if n <? 0 then
             Some (error [Lit name; Lit " must be non-negative"])
           else None
       | _ => Some (error [Lit "If specified, "; Lit name; Lit " must be a number"])
       end.

Fixpoint first_error {A} (f : A -> option Exn) (l : list A) : option Exn :=
  match l with
  | [] => None
  | x :: l' => match f x with
               | Some e => Some e
               | None => first_error f l'
               end
  end.

(** The [for (const [i, file] of files.entries())] loop. *)
Fixpoint check_contents (i : Z) (fs : list JsVal) : option Exn :=
  match fs with
  | [] => None
  | file :: fs' =>
      match file with
      | VNull | VUndef =>
          Some (error [Lit "Cannot read properties of null (reading 'content')"])
      | _ =>
          if is_string (prop file "content") then check_contents (i + 1) fs'
          else Some (error [Lit "files["; Interp (VNum i);
                            Lit "].content is required as a string"])
      end
  end.

(** [file => !file.encoding || file.encoding === 'utf8'] *)
Definition utf8_file (file : JsVal) : bool :=
  negb (truthy (prop file "encoding"))
  || match prop file "encoding" with
     | VStr s => (s =? "utf8")%string
     | _ => false
     end.

Section Registry.

(** [runtime.get_latest_runtime_matching_language_version], which lives in
    runtime.js; [None] is its [undefined]. *)
Variable get_latest_runtime_matching_language_version :
  string -> string -> option Runtime.

(** get_job: the promise it returns is settled by the time the executor
    returns, so the function is its outcome. *)
Definition get_job (body : JsVal) : Outcome Job :=
  match prop body "language" with
  | VStr lang =>
    if (lang =? "")%string then Rejected (error [Lit "language is required as a string"])
    else
    match prop body "version" with
    | VStr ver =>
      if (ver =? "")%string then Rejected (error [Lit "version is required as a string"])
      else
      match prop body "files" with
      | VArr fs =>
        match check_contents 0 fs with
        | Some e => Rejected e
        | None =>
          match get_latest_runtime_matching_language_version lang ver with
          | None =>
              Rejected (error [Interp (VStr lang); Lit "-"; Interp (VStr ver);
                               Lit " runtime is unknown"])
          | Some rt =>
            if negb (language rt =? "file")%string && negb (existsb utf8_file fs)
            then Rejected (error [Lit "files must include at least one utf8 encoded file"])
            else
            match first_error (check_constraint rt body) constraint_pairs with
            | Some e => Rejected e
            | None =>
              Resolved
                {| runtime := rt;
                   args := js_nullish (prop body "args") (VArr []);
                   stdin := js_nullish (prop body "stdin") (VStr "");
                   files := fs;
                   job_timeouts :=
                     {| for_run := js_nullish (prop body "run_timeout")
                                              (VNum (for_run (timeouts rt)));
                        for_compile := js_nullish (prop body "compile_timeout")
                                                  (VNum (for_compile (timeouts rt))) |};
                   job_cpu_times :=
                     {| for_run := js_nullish (prop body "run_cpu_time")
                                              (VNum (for_run (cpu_times rt)));
                        for_compile := js_nullish (prop body "compile_cpu_time")
                                                  (VNum (for_compile (cpu_times rt))) |};
                   job_memory_limits :=
                     {| for_run := js_nullish (prop body "run_memory_limit")
                                              (VNum (for_run (memory_limits rt)));
                        for_compile := js_nullish (prop body "compile_memory_limit")
                                                  (VNum (for_compile (memory_limits rt))) |}
                |}
            end
          end
        end
      | _ => Rejected (error [Lit "files is required as an array"])
      end
    | _ => Rejected (error [Lit "version is required as a string"])
    end
  | _ => Rejected (error [Lit "language is required as a string"])
  end.

End Registry.

(** ** What the Job methods return

    job.js is a collaborator of this file; only the shape of its results, as
    far as the handlers read them, is fixed here. *)

(** The sandbox handle returned by [job.prime()]; the handlers only pass it
    on. *)
Definition Box := JsVal.

Module CompileStage.
Record t : Type := { wall_time : JsVal; stdout : JsVal; stderr : JsVal; message : JsVal }.
End CompileStage.

Module CompileResult.
(** [compile] is [None] when the property is absent. *)
Record t : Type := { success : bool; compile : option CompileStage.t }.
End CompileResult.

Module TestResult.
(** [wall_time] is the one field the handler computes with: a number, or
    [None] when absent. *)
Record t : Type := {
  stdout : JsVal; stderr : JsVal; code : JsVal; signal : JsVal;
  message : JsVal; status : JsVal; wall_time : option Z;
  cpu_time : JsVal; memory : JsVal
}.
End TestResult.

Module BatchResult.
Record t : Type := {
  results : JsVal; total_time : option Z; total_cpu_time : JsVal;
  memory : JsVal; success : JsVal; stderr : JsVal
}.
End BatchResult.

(** [t || 0] for a number or [undefined] *)
Definition or_zero (t : option Z) : Z :=
  match t with
  | Some n => n
  | None => 0
  end.

(** The calls a handler makes on its job, with their arguments. *)
Inductive JobOp : Type :=
| prime (j : Job)
| compileOnly (j : Job) (box : Box)
| runTest (j : Job) (stdin timeout cpu_time memory_limit : JsVal)
| runBatched (j : Job) (test_cases timeout cpu_time memory_limit : JsVal)
| cleanup (j : Job).

Definition ret_type (op : JobOp) : Type :=
  match op with
  | prime _ => Box
  | compileOnly _ _ => CompileResult.t
  | runTest _ _ _ _ _ => TestResult.t
  | runBatched _ _ _ _ _ => BatchResult.t
  | cleanup _ => unit
  end.

(** ** What a session does to the outside *)

(** The objects given to [sendMessage], one constructor per [type]. *)
Inductive OutMsg : Type :=
| MError (test_id : option JsVal) (message : Text)
| MReady (language version : string) (compiled : bool)
| MCompiled (success : bool) (time stdout stderr error : JsVal)
| MResult (test_id : JsVal) (r : TestResult.t)
| MBatchResult (total_tests : Z) (r : BatchResult.t)
| MDone (total_tests total_time : Z).

Inductive Event : Type :=
| Send (m : OutMsg)                       (* ws.send(JSON.stringify(m)) *)
| CloseWs (code : Z) (reason : string)    (* ws.close(code, reason) *)
| LogError (t : Text)                     (* logger.error(t) *)
| Call (op : JobOp).                      (* a Job method is entered *)

(** ** The closure variables of one [/judge] connection *)

Record Session : Type := {
  job : option Job;
  box : Box;
  testCount : Z;
  totalTime : Z;
  isCompiled : bool
}.

Definition fresh : Session :=
  {| job := None; box := VNull; testCount := 0; totalTime := 0; isCompiled := false |}.

Definition set_job (j : Job) (s : Session) : Session :=
  {| job := Some j; box := box s; testCount := testCount s;
     totalTime := totalTime s; isCompiled := isCompiled s |}.

Definition set_box (b : Box) (s : Session) : Session :=
  {| job := job s; box := b; testCount := testCount s;
     totalTime := totalTime s; isCompiled := isCompiled s |}.

Definition set_isCompiled (c : bool) (s : Session) : Session :=
  {| job := job s; box := box s; testCount := testCount s;
     totalTime := totalTime s; isCompiled := c |}.

Definition set_testCount (n : Z) (s : Session) : Session :=
  {| job := job s; box := box s; testCount := n;
     totalTime := totalTime s; isCompiled := isCompiled s |}.

Definition set_totalTime (t : Z) (s : Session) : Session :=
  {| job := job s; box := box s; testCount := testCount s;
     totalTime := t; isCompiled := isCompiled s |}.

(** ** Asynchronous handlers

    The body of an [async] function: it reads and writes the closure
    variables, performs synchronous effects, and suspends at every [await].
    [Await op k] awaits a Job method; [Yield k] awaits a promise that is
    already settled (the one [get_job] returns). *)
Inductive Async (A : Type) : Type :=
| Ret (a : A)
| Throw (e : Exn)
| Read (k : Session -> Async A)
| Write (s : Session) (k : Async A)
| Do (ev : Event) (k : Async A)
| Yield (k : Async A)
| Await (op : JobOp) (k : Outcome (ret_type op) -> Async A).
Arguments Ret {A} a.
Arguments Throw {A} e.
Arguments Read {A} k.
Arguments Write {A} s k.
Arguments Do {A} ev k.
Arguments Yield {A} k.
Arguments Await {A} op k.

Fixpoint bind {A B} (p : Async A) (f : A -> Async B) : Async B :=
  match p with
  | Ret a => f a
  | Throw e => Throw e
  | Read k => Read (fun s => bind (k s) f)
  | Write s k => Write s (bind k f)
  | Do ev k => Do ev (bind k f)
  | Yield k => Yield (bind k f)
  | Await op k => Await op (fun o => bind (k o) f)
  end.

(** [try { p } catch (error) { h error }] *)
Fixpoint try_catch {A} (p : Async A) (h : Exn -> Async A) : Async A :=
  match p with
  | Ret a => Ret a
  | Throw e => h e
  | Read k => Read (fun s => try_catch (k s) h)
  | Write s k => Write s (try_catch k h)
  | Do ev k => Do ev (try_catch k h)
  | Yield k => Yield (try_catch k h)
  | Await op k => Await op (fun o => try_catch (k o) h)
  end.

Declare Scope async_scope.
Delimit Scope async_scope with async.
Notation "x <- p ;; q" := (bind p (fun x => q))
  (at level 61, p at next level, right associativity) : async_scope.
Notation "p ;; q" := (bind p (fun _ => q))
  (at level 61, right associativity) : async_scope.
Local Open Scope async_scope.

Definition settle {A} (o : Outcome A) : Async A :=
  match o with
  | Resolved a => Ret a
  | Rejected e => Throw e
  end.

(** [await job.op(...)] *)
Definition await (op : JobOp) : Async (ret_type op) := Await op settle.

(** [await p] for a settled promise [p] *)
Definition await_settled {A} (o : Outcome A) : Async A := Yield (settle o).

Definition get : Async Session := Read Ret.
Definition modify (f : Session -> Session) : Async unit :=
  Read (fun s => Write (f s) (Ret tt)).

Definition sendMessage (m : OutMsg) : Async unit := Do (Send m) (Ret tt).
Definition ws_close (code : Z) (reason : string) : Async unit :=
  Do (CloseWs code reason) (Ret tt).
Definition logger_error (t : Text) : Async unit := Do (LogError t) (Ret tt).

(** [if (job) await job.cleanup();] *)
Definition cleanup_if_job : Async unit :=
  s <- get ;;
  match job s with
  | Some j => await (cleanup j)
  | None => Ret tt
  end.

(** Reading the variable [job] where the source dereferences it. *)
Definition the_job : Async Job :=
  s <- get ;;
  match job s with
  | Some j => Ret j
  | None => Throw (error [Lit "Cannot read properties of null"])
  end.

(** ** The [/judge] endpoint *)

(** The argument of the ['message'] listener: a text frame on which
    [JSON.parse] throws, or the value it returns. *)
Inductive Frame : Type :=
| Malformed (why : Text)
| Json (msg : JsVal).

(** The arms of [switch (msg.type)]. *)
Inductive Kind : Type := KInit | KRunTest | KRunBatch | KClose | KDefault.

Definition kind_of (type : JsVal) : Kind :=
  match type with
  | VStr s =>
      if (s =? "init")%string then KInit
      else if (s =? "run_test")%string then KRunTest
      else if (s =? "run_batch")%string then KRunBatch
      else if (s =? "close")%string then KClose
      else KDefault
  | _ => KDefault
  end.

Definition not_compiled : Text := [Lit "Code did not compile successfully"].

Section Judge.

Variable registry : string -> string -> option Runtime.

(** [case 'init'].  The first [try] ends in [return] on its [catch] path;
    the flag it yields here says whether control goes on. *)
Definition init_case (msg : JsVal) : Async unit :=
  s <- get ;;
  match job s with
  | Some _ => ws_close 4000 "Already Initialized"
  | None =>
      created <-
        try_catch
          (j <- await_settled (get_job registry msg) ;;
           modify (set_job j) ;;
           Ret true)
          (fun error =>
             sendMessage (MError None (message error)) ;;
             ws_close 4002 "Notified Error" ;;
             Ret false) ;;
      if created then
        try_catch
          (j <- the_job ;;
           b <- await (prime j) ;;
           modify (set_box b) ;;
           j <- the_job ;;
           sendMessage (MReady (language (runtime j)) (version_raw (runtime j))
                               (compiled (runtime j))) ;;
           s <- get ;;
           compileResult <- await (compileOnly j (box s)) ;;
           modify (set_isCompiled (CompileResult.success compileResult)) ;;
           sendMessage
             (MCompiled (CompileResult.success compileResult)
                match CompileResult.compile compileResult with
                | Some c => js_or (CompileStage.wall_time c) (VNum 0)
                | None => VNum 0
                end
                match CompileResult.compile compileResult with
                | Some c => js_or (CompileStage.stdout c) (VStr "")
                | None => VStr ""
                end
                match CompileResult.compile compileResult with
                | Some c => js_or (CompileStage.stderr c) (VStr "")
                | None => VStr ""
                end
                match CompileResult.compile compileResult with
                | Some c => js_or (CompileStage.message c) VNull
                | None => VNull
                end) ;;
           s <- get ;;
           if negb (isCompiled s) then
             j <- the_job ;;
             await (cleanup j) ;;
             ws_close 4006 "Compilation Failed"
           else Ret tt)
          (fun error =>
             logger_error (Lit "Error initializing job: " :: message error) ;;
             sendMessage (MError None (message error)) ;;
             cleanup_if_job ;;
             ws_close 4002 "Notified Error")
      else Ret tt
  end.

(** [case 'run_test'] *)
Definition run_test_case (msg : JsVal) : Async unit :=
  s <- get ;;
  match job s with
  | None => ws_close 4003 "Not yet initialized"
  | Some j =>
      if negb (isCompiled s) then sendMessage (MError None not_compiled)
      else
        try_catch
          (testResult <-
             await (runTest j
                      (js_or (prop msg "stdin") (VStr ""))
                      (js_or (prop msg "timeout") VNull)
                      (js_or (prop msg "cpu_time") VNull)
                      (js_or (prop msg "memory_limit") VNull)) ;;
           modify (fun s => set_testCount (testCount s + 1) s) ;;
           modify (fun s =>
                     set_totalTime
                       (totalTime s + or_zero (TestResult.wall_time testResult)) s) ;;
           s <- get ;;
           sendMessage (MResult (js_or (prop msg "test_id") (VNum (testCount s)))
                                testResult))
          (fun error =>
             logger_error (Lit "Error running test: " :: message error) ;;
             s <- get ;;
             sendMessage
               (MError (Some (js_or (prop msg "test_id") (VNum (testCount s + 1))))
                       (message error)))
  end.

(** [case 'run_batch'] *)
Definition run_batch_case (msg : JsVal) : Async unit :=
  s <- get ;;
  match job s with
  | None => ws_close 4003 "Not yet initialized"
  | Some j =>
      if negb (isCompiled s) then sendMessage (MError None not_compiled)
      else
        match prop msg "test_cases" with
        | VArr (c :: cs) =>
            try_catch
              (batchResult <-
                 await (runBatched j
                          (prop msg "test_cases")
                          (js_or (prop msg "timeout") VNull)
                          (js_or (prop msg "cpu_time") VNull)
                          (js_or (prop msg "memory_limit") VNull)) ;;
               modify (set_testCount (Z.of_nat (List.length (c :: cs)))) ;;
               modify (set_totalTime (or_zero (BatchResult.total_time batchResult))) ;;
               s <- get ;;
               sendMessage (MBatchResult (testCount s) batchResult))
              (fun error =>
                 logger_error (Lit "Error running batch: " :: message error) ;;
                 sendMessage (MError None (message error)))
        | _ =>
            sendMessage (MError None [Lit "test_cases array is required for run_batch"])
        end
  end.

(** [case 'close'] *)
Definition close_case : Async unit :=
  s <- get ;;
  sendMessage (MDone (testCount s) (totalTime s)) ;;
  cleanup_if_job ;;
  ws_close 4999 "Session Completed".

(** [default] *)
Definition default_case (msg : JsVal) : Async unit :=
  sendMessage (MError None [Lit "Unknown message type: "; Interp (prop msg "type")]).

(** The ['message'] listener. *)
Definition on_message (data : Frame) : Async unit :=
  try_catch
    match data with
    | Malformed why => Throw (error why)
    | Json VNull => Throw (error [Lit "Cannot read properties of null (reading 'type')"])
    | Json msg =>
        match kind_of (prop msg "type") with
        | KInit => init_case msg
        | KRunTest => run_test_case msg
        | KRunBatch => run_batch_case msg
        | KClose => close_case
        | KDefault => default_case msg
        end
    end
    (fun error =>
       sendMessage (MError None (message error)) ;;
       ws_close 4002 "Notified Error").

(** The ['close'] listener. *)
Definition on_close : Async unit :=
  s <- get ;;
  match job s with
  | Some j =>
      try_catch
        (await (cleanup j))
        (fun e => logger_error (Lit "Error cleaning up job on close: " :: message e))
  | None => Ret tt
  end.

(** The callback of [setTimeout(..., 5000)]. *)
Definition on_timeout : Async unit :=
  s <- get ;;
  match job s with
  | None => ws_close 4001 "Initialization Timeout"
  | Some _ => Ret tt
  end.

End Judge.

(** ** Running a handler to completion

    The Job is outside this file, so what its methods answer is given from
    outside: [env n op] is the outcome of the [n]-th Job call of the
    connection when that call is [op]. *)
Definition Env : Type := nat -> forall op : JobOp, Outcome (ret_type op).

Record Result (A : Type) : Type := {
  trace : list Event;      (* what happened, oldest first *)
  after : Session;         (* the closure variables afterwards *)
  calls : nat;             (* Job calls made so far on the connection *)
  value : Outcome A        (* returned, or thrown out of the handler *)
}.
Arguments trace {A} _.
Arguments after {A} _.
Arguments calls {A} _.
Arguments value {A} _.

Definition emit {A} (ev : Event) (r : Result A) : Result A :=
  {| trace := ev :: trace r; after := after r; calls := calls r; value := value r |}.

(** A handler that runs with no other handler of the connection in flight:
    each awaited call is answered before anything else happens. *)
Fixpoint exec {A} (env : Env) (p : Async A) (n : nat) (s : Session) : Result A :=
  match p with
  | Ret a => {| trace := []; after := s; calls := n; value := Resolved a |}
  | Throw e => {| trace := []; after := s; calls := n; value := Rejected e |}
  | Read k => exec env (k s) n s
  | Write s' k => exec env k n s'
  | Do ev k => emit ev (exec env k n s)
  | Yield k => exec env k n s
  | Await op k => emit (Call op) (exec env (k (env n op)) (S n) s)
  end.

Section Connection.

Variable registry : string -> string -> option Runtime.
Variable env : Env.

(** The ['message'] listener on one frame, from call counter [n] and
    variables [s]. *)
Definition handle (data : Frame) (n : nat) (s : Session) : Result unit :=
  exec env (on_message registry data) n s.

(** Frames handled one after the other. *)
Fixpoint handle_all (frames : list Frame) (n : nat) (s : Session) : Result unit :=
  match frames with
  | [] => {| trace := []; after := s; calls := n; value := Resolved tt |}
  | data :: rest =>
      let r := handle data n s in
      let r' := handle_all rest (calls r) (after r) in
      {| trace := trace r ++ trace r'; after := after r';
         calls := calls r'; value := value r' |}
  end.

(** A whole connection: the frames it receives, then the ['close'] event,
    which the socket emits once, whoever started the closing. *)
Definition judge (frames : list Frame) : list Event :=
  let r := handle_all frames 0%nat fresh in
  trace r ++ trace (exec env on_close (calls r) (after r)).

End Connection.

(** ** The event loop of one connection

    The socket calls the ['message'] listener for every frame and does not
    wait for the promise an [async] listener returns: a listener runs until
    its next [await], and the rest of it runs in a later turn, once what it
    awaits has settled.  Between the two, other frames may arrive. *)

(** A listener suspended at an [await]: on a settled promise, or on the
    Job call the connection made as its [idx]-th. *)
Inductive Suspended : Type :=
| AtYield (k : Async unit)
| AtAwait (idx : nat) (op : JobOp) (k : Outcome (ret_type op) -> Async unit).

Record Loop : Type := {
  vars : Session;              (* the closure variables *)
  made : nat;                  (* Job calls made so far *)
  waiting : list Suspended;    (* the suspended listeners, oldest first *)
  log : list Event             (* what happened so far, oldest first *)
}.

Definition start : Loop :=
  {| vars := fresh; made := 0%nat; waiting := []; log := [] |}.

(** Run a listener body up to its next [await], or to its end. *)
Fixpoint advance (p : Async unit) (l : Loop) : Loop :=
  match p with
  | Ret _ | Throw _ => l
  | Read k => advance (k (vars l)) l
  | Write s k =>
      advance k {| vars := s; made := made l; waiting := waiting l; log := log l |}
  | Do ev k =>
      advance k {| vars := vars l; made := made l; waiting := waiting l;
                   log := log l ++ [ev] |}
  | Yield k =>
      {| vars := vars l; made := made l; waiting := waiting l ++ [AtYield k];
         log := log l |}
  | Await op k =>
      {| vars := vars l; made := S (made l);
         waiting := waiting l ++ [AtAwait (made l) op k];
         log := log l ++ [Call op] |}
  end.

Fixpoint remove_nth {A} (i : nat) (l : list A) : list A :=
  match i, l with
  | _, [] => []
  | O, _ :: l' => l'
  | S i', x :: l' => x :: remove_nth i' l'
  end.

(** One turn of the loop: a frame arrives, or what the [i]-th suspended
    listener awaits settles. *)
Inductive Turn : Type :=
| Arrives (data : Frame)
| Settles (i : nat).

Section EventLoop.

Variable registry : string -> string -> option Runtime.
Variable env : Env.

Definition resume (w : Suspended) : Async unit :=
  match w with
  | AtYield k => k
  | AtAwait idx op k => k (env idx op)
  end.

Definition turn (l : Loop) (t : Turn) : Loop :=
  match t with
  | Arrives data => advance (on_message registry data) l
  | Settles i =>
      match nth_error (waiting l) i with
      | Some w =>
          advance (resume w)
            {| vars := vars l; made := made l;
               waiting := remove_nth i (waiting l); log := log l |}
      | None => l
      end
  end.

Definition turns (l : Loop) (ts : list Turn) : Loop := fold_left turn ts l.

(** The client waits: every frame arrives when no listener is suspended. *)
Fixpoint one_at_a_time (l : Loop) (ts : list Turn) : bool :=
  match ts with
  | [] => true
  | t :: ts' =>
      match t, waiting l with
      | Arrives _, _ :: _ => false
      | _, _ => one_at_a_time (turn l t) ts'
      end
  end.

End EventLoop.

(** The frames of a schedule, in order of arrival. *)
Fixpoint arrivals (ts : list Turn) : list Frame :=
  match ts with
  | [] => []
  | Arrives data :: ts' => data :: arrivals ts'
  | Settles _ :: ts' => arrivals ts'
  end.

(** ** Reading a trace *)

Definition is_cleanup (ev : Event) : bool :=
  match ev with Call (cleanup _) => true | _ => false end.

(** How many times [Job.cleanup] was entered. *)
Definition cleanup_count (tr : list Event) : nat :=
  List.length (filter is_cleanup tr).

Definition is_job_call (ev : Event) : bool :=
  match ev with Call _ => true | _ => false end.

(** The messages sent to the client, in order. *)
Fixpoint sent (tr : list Event) : list OutMsg :=
  match tr with
  | [] => []
  | Send m :: tr' => m :: sent tr'
  | _ :: tr' => sent tr'
  end.

(** The codes [ws.close] was called with, in order. *)
Fixpoint close_codes (tr : list Event) : list Z :=
  match tr with
  | [] => []
  | CloseWs code _ :: tr' => code :: close_codes tr'
  | _ :: tr' => close_codes tr'
  end.


Definition is_run_call (ev : Event) : bool :=
  match ev with
  | Call (runTest _ _ _ _ _) | Call (runBatched _ _ _ _ _) => true
  | _ => false
  end.


(** ** A small installation, for concrete runs *)

Module Demo.

Definition python : Runtime :=
  {| language := "python"; version_raw := "3.10.0"; compiled := false;
     timeouts := {| for_compile := 10000; for_run := 3000 |};
     cpu_times := {| for_compile := 10000; for_run := 3000 |};
     memory_limits := {| for_compile := -1; for_run := -1 |} |}.

Definition gcc : Runtime :=
  {| language := "c"; version_raw := "10.2.0"; compiled := true;
     timeouts := {| for_compile := 10000; for_run := 3000 |};
     cpu_times := {| for_compile := 10000; for_run := 3000 |};
     memory_limits := {| for_compile := -1; for_run := -1 |} |}.

(** The runtime whose language is the sentinel ['file']. *)
Definition file : Runtime :=
  {| language := "file"; version_raw := "0.0.1"; compiled := false;
     timeouts := {| for_compile := 10000; for_run := 3000 |};
     cpu_times := {| for_compile := 10000; for_run := 3000 |};
     memory_limits := {| for_compile := -1; for_run := -1 |} |}.

Definition registry (lang ver : string) : option Runtime :=
  if (lang =? "python")%string then Some python
  else if (lang =? "c")%string then Some gcc
  else if (lang =? "file")%string then Some file
  else None.

Definition source (content : string) : JsVal :=
  VObj [("content", VStr content)].

Definition init (lang : string) (fs : list JsVal) (limits : list (string * JsVal))
  : JsVal :=
  VObj ([("type", VStr "init"); ("language", VStr lang); ("version", VStr "*");
         ("files", VArr fs)] ++ limits).

Definition init_python : JsVal := init "python" [source "print(int(input())*2)"] [].
Definition init_c : JsVal := init "c" [source "int main(){return 0;}"] [].

Definition run_test (fields : list (string * JsVal)) : JsVal :=
  VObj (("type", VStr "run_test") :: fields).

Definition run_batch (cases : list JsVal) : JsVal :=
  VObj [("type", VStr "run_batch"); ("test_cases", VArr cases)].

Definition close : JsVal := VObj [("type", VStr "close")].

Definition test_result (ms : Z) : TestResult.t :=
  {| TestResult.stdout := VStr "10"; TestResult.stderr := VStr "";
     TestResult.code := VNum 0; TestResult.signal := VNull;
     TestResult.message := VNull; TestResult.status := VNull;
     TestResult.wall_time := Some ms; TestResult.cpu_time := VNum 1;
     TestResult.memory := VNum 8192 |}.

Definition batch_result (ms : Z) : BatchResult.t :=
  {| BatchResult.results := VArr []; BatchResult.total_time := Some ms;
     BatchResult.total_cpu_time := VNum 2; BatchResult.memory := VNum 8192;
     BatchResult.success := VBool true; BatchResult.stderr := VStr "" |}.

Definition compiled_ok : CompileResult.t :=
  {| CompileResult.success := true; CompileResult.compile := None |}.


(** A Job on which everything succeeds: tests take 10 ms, a batch 7 ms. *)
Definition env : Env :=
  fun _ op =>
    match op as o return Outcome (ret_type o) with
    | prime _ => Resolved (VStr "box")
    | compileOnly _ _ => Resolved compiled_ok
    | runTest _ _ _ _ _ => Resolved (test_result 10)
    | runBatched _ _ _ _ _ => Resolved (batch_result 7)
    | cleanup _ => Resolved tt
    end.

(** The job [get_job] makes of [init_python]. *)
Definition job_python : Job :=
  {| runtime := python; args := VArr []; stdin := VStr "";
     files := [source "print(int(input())*2)"];
     job_timeouts := {| for_compile := VNum 10000; for_run := VNum 3000 |};
     job_cpu_times := {| for_compile := VNum 10000; for_run := VNum 3000 |};
     job_memory_limits := {| for_compile := VNum (-1); for_run := VNum (-1) |} |}.


(** The variables of a session after [init_python] went through. *)
Definition ready : Session :=
  {| job := Some job_python; box := VStr "box"; testCount := 0; totalTime := 0;
     isCompiled := true |}.


(** The same Job with a [cleanup] that always rejects. *)
Definition env_cleanup_fails : Env :=
  fun n op =>
    match op as o return Outcome (ret_type o) with
    | cleanup _ => Rejected (error [Lit "rm failed"])
    | o => env n o
    end.

(** The same Job with a [prime] that rejects. *)
Definition env_prime_fails : Env :=
  fun n op =>
    match op as o return Outcome (ret_type o) with
    | prime _ => Rejected (error [Lit "no free box"])
    | o => env n o
    end.

End Demo.

(** How a frame is dispatched: [None] when the listener throws before the
    [switch] ([JSON.parse] fails, or the frame is the JSON [null]). *)
Definition kind_of_frame (data : Frame) : option Kind :=
  match data with
  | Malformed _ => None
  | Json VNull => None
  | Json msg => Some (kind_of (prop msg "type"))
  end.

(** ** Vocabulary of the properties *)





Definition is_close_frame (data : Frame) : bool :=
  match kind_of_frame data with
  | Some KClose => true
  | _ => false
  end.

(** The [compiled] message for a compile result. *)
Definition compiled_message (cr : CompileResult.t) : OutMsg :=
  MCompiled (CompileResult.success cr)
    match CompileResult.compile cr with
    | Some c => js_or (CompileStage.wall_time c) (VNum 0)
    | None => VNum 0
    end
    match CompileResult.compile cr with
    | Some c => js_or (CompileStage.stdout c) (VStr "")
    | None => VStr ""
    end
    match CompileResult.compile cr with
    | Some c => js_or (CompileStage.stderr c) (VStr "")
    | None => VStr ""
    end
    match CompileResult.compile cr with
    | Some c => js_or (CompileStage.message c) VNull
    | None => VNull
    end.

Definition ready_message (j : Job) : OutMsg :=
  MReady (language (runtime j)) (version_raw (runtime j)) (compiled (runtime j)).

(** A value [v] given for the limit of constraint [c] at stage [t] that the
    validation refuses under runtime [rt]: it is truthy and not a number, or
    it is a non-zero number, the configured limit is positive, and the
    number is negative or above that limit. *)
Definition refused_limit (rt : Runtime) (c : Constraint) (t : Stage) (v : JsVal) : Prop :=
  truthy v = true /\
  match v with
  | VNum n => 0 < configured_limit rt c t /\ (n < 0 \/ configured_limit rt c t < n)
  | _ => True
  end.

(** The runtime [get_job] resolves for a request, if the request gets that
    far. *)
Definition resolves_to (registry : string -> string -> option Runtime)
    (body : JsVal) (rt : Runtime) : Prop :=
  exists lang ver,
    prop body "language" = VStr lang /\ prop body "version" = VStr ver /\
    registry lang ver = Some rt.

(** A [files] field that the validation refuses: absent or not an array, or
    the empty array when the runtime of the request is not the ['file']
    one. *)
Definition refused_files (registry : string -> string -> option Runtime)
    (body : JsVal) : Prop :=
  match prop body "files" with
  | VArr [] => forall rt, resolves_to registry body rt -> language rt <> "file"
  | VArr (_ :: _) => False
  | _ => True
  end.

(** The order of what a connection sends: a [compiled] comes right after a
    [ready], and when the socket is closed with 4999 the last message sent
    is a [done].  [last] is the last message sent before [tr]. *)
Definition allowed (last : option OutMsg) (ev : Event) : bool :=
  match ev with
  | Send (MCompiled _ _ _ _ _) =>
      match last with Some (MReady _ _ _) => true | _ => false end
  | CloseWs code _ =>
      if code =? 4999
      then match last with Some (MDone _ _) => true | _ => false end
      else true
  | _ => true
  end.

Definition last_sent (last : option OutMsg) (ev : Event) : option OutMsg :=
  match ev with
  | Send m => Some m
  | _ => last
  end.

Fixpoint in_order (last : option OutMsg) (tr : list Event) : bool :=
  match tr with
  | [] => true
  | ev :: tr' => allowed last ev && in_order (last_sent last ev) tr'
  end.

(** What is left of the one listener in flight, run to its end. *)
Definition completion (env : Env) (l : Loop) : Result unit :=
  match waiting l with
  | [] => {| trace := []; after := vars l; calls := made l; value := Resolved tt |}
  | w :: _ => exec env (resume env w) (made l) (vars l)
  end.

(** ** Vocabulary of further properties *)

(** A limit value the validation of [get_job] accepts under runtime [rt]:
    falsy, or a number that is within [0, limit] when the configured limit
    is positive. *)
Definition acceptable_limit (rt : Runtime) (body : JsVal) (c : Constraint) (t : Stage)
  : Prop :=
  truthy (prop body (constraint_name c t)) = false \/
  exists n, prop body (constraint_name c t) = VNum n /\
            (configured_limit rt c t <= 0 \/ 0 <= n <= configured_limit rt c t).

Definition has_content (file : JsVal) : Prop :=
  exists s, prop file "content" = VStr s.

(** A request that passes every check of [get_job], with the runtime the
    registry resolves for it. *)
Definition acceptable (registry : string -> string -> option Runtime)
    (body : JsVal) (rt : Runtime) (fs : list JsVal) : Prop :=
  exists lang ver,
    prop body "language" = VStr lang /\ lang <> "" /\
    prop body "version" = VStr ver /\ ver <> "" /\
    prop body "files" = VArr fs /\
    Forall has_content fs /\
    registry lang ver = Some rt /\
    (language rt = "file" \/ Exists (fun f => utf8_file f = true) fs) /\
    forall c t, acceptable_limit rt body c t.

(** [job.timeouts[type]], [job.cpu_times[type]], [job.memory_limits[type]] *)
Definition job_limit (j : Job) (c : Constraint) (t : Stage) : JsVal :=
  at_stage t
    match c with
    | MemoryLimit => job_memory_limits j
    | Timeout => job_timeouts j
    | CpuTime => job_cpu_times j
    end.

(** An [init] frame that [get_job] accepts. *)
Definition creates_job (registry : string -> string -> option Runtime)
    (data : Frame) : bool :=
  match data with
  | Malformed _ => false
  | Json msg =>
      match kind_of_frame data with
      | Some KInit =>
          match get_job registry msg with
          | Resolved _ => true
          | Rejected _ => false
          end
      | _ => false
      end
  end.

Definition is_batch_frame (data : Frame) : bool :=
  match kind_of_frame data with
  | Some KRunBatch => true
  | _ => false
  end.

(** The number of [result] messages in a trace, and the sum of the wall
    times they report. *)
Fixpoint results_sent (tr : list Event) : Z :=
  match tr with
  | [] => 0
  | Send (MResult _ _) :: tr' => 1 + results_sent tr'
  | _ :: tr' => results_sent tr'
  end.

Fixpoint time_sent (tr : list Event) : Z :=
  match tr with
  | [] => 0
  | Send (MResult _ r) :: tr' => or_zero (TestResult.wall_time r) + time_sent tr'
  | _ :: tr' => time_sent tr'
  end.

(** [compiled] with [success: true] *)
Definition announces (ev : Event) : bool :=
  match ev with
  | Send (MCompiled true _ _ _ _) => true
  | _ => false
  end.

(** Every [runTest] and [runBatched] of a trace comes after a [compiled]
    with [success: true]; [seen] says whether one was sent before the
    trace. *)
Fixpoint compiled_before_runs (seen : bool) (tr : list Event) : bool :=
  match tr with
  | [] => true
  | ev :: tr' =>
      (if is_run_call ev then seen else true) &&
      compiled_before_runs (seen || announces ev) tr'
  end.

(** The frame got a message or a close in answer. *)
Definition answered (tr : list Event) : Prop :=
  sent tr <> [] \/ close_codes tr <> [].

(** ** The other routes of api/v2.js

    The listeners of [/connect] and [/execute] are [async] functions over
    other variables, other Job methods and other effects than those of
    [/judge]; their bodies are written in the same kind of monad, with the
    state, the awaited operations and the effects left open. *)

Section Routines.

Variables (St : Type) (Op : Type) (ret : Op -> Type) (Ev : Type).

Inductive Routine (A : Type) : Type :=
| RRet (a : A)
| RThrow (e : Exn)
| RRead (k : St -> Routine A)
| RWrite (s : St) (k : Routine A)
| RDo (ev : Ev) (k : Routine A)
| RYield (k : Routine A)
| RAwait (op : Op) (k : Outcome (ret op) -> Routine A).
Arguments RRet {A} a.
Arguments RThrow {A} e.
Arguments RRead {A} k.
Arguments RWrite {A} s k.
Arguments RDo {A} ev k.
Arguments RYield {A} k.
Arguments RAwait {A} op k.

Fixpoint rbind {A B} (p : Routine A) (f : A -> Routine B) : Routine B :=
  match p with
  | RRet a => f a
  | RThrow e => RThrow e
  | RRead k => RRead (fun s => rbind (k s) f)
  | RWrite s k => RWrite s (rbind k f)
  | RDo ev k => RDo ev (rbind k f)
  | RYield k => RYield (rbind k f)
  | RAwait op k => RAwait op (fun o => rbind (k o) f)
  end.

(** [try { p } catch (error) { h error }] *)
Fixpoint rcatch {A} (p : Routine A) (h : Exn -> Routine A) : Routine A :=
  match p with
  | RRet a => RRet a
  | RThrow e => h e
  | RRead k => RRead (fun s => rcatch (k s) h)
  | RWrite s k => RWrite s (rcatch k h)
  | RDo ev k => RDo ev (rcatch k h)
  | RYield k => RYield (rcatch k h)
  | RAwait op k => RAwait op (fun o => rcatch (k o) h)
  end.

(** [try { p } finally { f }]: [f] runs however [p] ends, and what [p]
    returned or threw stands unless [f] throws. *)
Fixpoint rfinally {A} (p : Routine A) (f : Routine unit) : Routine A :=
  match p with
  | RRet a => rbind f (fun _ => RRet a)
  | RThrow e => rbind f (fun _ => RThrow e)
  | RRead k => RRead (fun s => rfinally (k s) f)
  | RWrite s k => RWrite s (rfinally k f)
  | RDo ev k => RDo ev (rfinally k f)
  | RYield k => RYield (rfinally k f)
  | RAwait op k => RAwait op (fun o => rfinally (k o) f)
  end.

Definition rsettle {A} (o : Outcome A) : Routine A :=
  match o with
  | Resolved a => RRet a
  | Rejected e => RThrow e
  end.

Definition rawait (op : Op) : Routine (ret op) := RAwait op rsettle.
Definition rawait_settled {A} (o : Outcome A) : Routine A := RYield (rsettle o).
Definition rdo (ev : Ev) : Routine unit := RDo ev (RRet tt).

(** What a routine did: its own effects and the operations it entered. *)
Inductive Step : Type :=
| Did (ev : Ev)
| Entered (op : Op).

Record Ran (A : Type) : Type := {
  steps : list Step;
  left : St;
  entered : nat;
  ended : Outcome A
}.
Arguments steps {A} _.
Arguments left {A} _.
Arguments entered {A} _.
Arguments ended {A} _.

Definition with_step {A} (x : Step) (r : Ran A) : Ran A :=
  {| steps := x :: steps r; left := left r; entered := entered r; ended := ended r |}.

(** The routine run to its end with nothing else in between; [answers n op]
    is the outcome of its [n]-th awaited operation. *)
Fixpoint rrun {A} (answers : nat -> forall op : Op, Outcome (ret op))
    (p : Routine A) (n : nat) (s : St) : Ran A :=
  match p with
  | RRet a => {| steps := []; left := s; entered := n; ended := Resolved a |}
  | RThrow e => {| steps := []; left := s; entered := n; ended := Rejected e |}
  | RRead k => rrun answers (k s) n s
  | RWrite s' k => rrun answers k n s'
  | RDo ev k => with_step (Did ev) (rrun answers k n s)
  | RYield k => rrun answers k n s
  | RAwait op k => with_step (Entered op) (rrun answers (k (answers n op)) (S n) s)
  end.

End Routines.

Arguments RRet {St Op ret Ev A} a.
Arguments RThrow {St Op ret Ev A} e.
Arguments RRead {St Op ret Ev A} k.
Arguments RWrite {St Op ret Ev A} s k.
Arguments RDo {St Op ret Ev A} ev k.
Arguments RYield {St Op ret Ev A} k.
Arguments RAwait {St Op ret Ev A} op k.
Arguments rbind {St Op ret Ev A B} p f.
Arguments rcatch {St Op ret Ev A} p h.
Arguments rfinally {St Op ret Ev A} p f.
Arguments rsettle {St Op ret Ev A} o.
Arguments rawait {St Op ret Ev} op.
Arguments rawait_settled {St Op ret Ev A} o.
Arguments rdo {St Op ret Ev} ev.
Arguments Did {Op Ev} ev.
Arguments Entered {Op Ev} op.
Arguments steps {St Op Ev A} _.
Arguments left {St Op Ev A} _.
Arguments entered {St Op Ev A} _.
Arguments ended {St Op Ev A} _.
Arguments rrun {St Op ret Ev A} answers p n s.

Declare Scope routine_scope.
Delimit Scope routine_scope with routine.
Notation "x <- p ;; q" := (rbind p (fun x => q))
  (at level 61, p at next level, right associativity) : routine_scope.
Notation "p ;; q" := (rbind p (fun _ => q))
  (at level 61, right associativity) : routine_scope.

(** What [job.execute] returns, as far as the routes read it; a stage that
    did not run is [undefined]. *)
Module Executed.
Record t : Type := { language : JsVal; version : JsVal; compile : JsVal; run : JsVal }.
End Executed.

(** The Job methods the two routes await; [event_bus] says whether
    [execute] is given the bus of the connection. *)
Inductive RouteOp : Type :=
| job_prime (j : Job)
| job_execute (j : Job) (box : Box) (event_bus : bool)
| job_cleanup (j : Job).

Definition route_ret (op : RouteOp) : Type :=
  match op with
  | job_prime _ => Box
  | job_execute _ _ _ => Executed.t
  | job_cleanup _ => unit
  end.

(** What is given to [res.send] or [res.json]. *)
Inductive Body : Type :=
| NoBody
| ErrorBody (e : Exn)
| MessageBody (t : Text)
| ResultBody (r : Executed.t).

(** The objects [/connect] sends from its listener. *)
Inductive ConnMsg : Type :=
| CRuntime (language version : string)
| CError (message : Text).

Inductive Act : Type :=
| Respond (status : Z) (b : Body)            (* res.status(status).send(b) *)
| Next                                       (* next() *)
| WsSend (m : ConnMsg)                       (* ws.send(JSON.stringify(m)) *)
| WsClose (code : Z) (reason : string)       (* ws.close(code, reason) *)
| Emit (event : string) (payload : JsVal)    (* event_bus.emit(event, payload) *)
| LogErr (t : Text).                         (* logger.error(t) *)

Definition RouteEnv : Type := nat -> forall op : RouteOp, Outcome (route_ret op).

Local Open Scope routine_scope.

(** *** The content-type middleware *)

Record Request : Type := {
  method : string;
  content_type : option string;    (* req.headers['content-type'] *)
  req_body : JsVal
}.

Definition starts_with_json (h : option string) : bool :=
  match h with
  | Some ct => String.prefix "application/json" ct
  | None => false
  end.

(** [router.use((req, res, next) => ...)]; the result says whether [next]
    was called. *)
Definition content_type_gate {St : Type} (req : Request)
  : Routine St RouteOp route_ret Act bool :=
  if existsb (String.eqb (method req)) ["GET"; "HEAD"; "OPTIONS"] then
    rdo Next ;; RRet true
  else if negb (starts_with_json (content_type req)) then
    rdo (Respond 415 (MessageBody [Lit "requests must be of type application/json"])) ;;
    RRet false
  else
    rdo Next ;; RRet true.

(** *** [POST /execute] *)

(** [if (result.run === undefined) result.run = result.compile;] *)
Definition default_run (result : Executed.t) : Executed.t :=
  match Executed.run result with
  | VUndef =>
      {| Executed.language := Executed.language result;
         Executed.version := Executed.version result;
         Executed.compile := Executed.compile result;
         Executed.run := Executed.compile result |}
  | _ => result
  end.

Section Execute.

Variable registry : string -> string -> option Runtime.

(** [get_job(req.body)]: the destructuring at its head throws on a body that
    is [null] or [undefined]. *)
Definition get_job_of (body : JsVal) : Outcome Job :=
  match body with
  | VNull | VUndef =>
      Rejected (error [Lit "Cannot destructure property 'language' of 'body'"])
  | _ => get_job registry body
  end.

(** The handler of [router.post('/execute', ...)].  Its returns end the
    handler; the value returned is of no use to Express. *)
Definition execute_route (body : JsVal) : Routine unit RouteOp route_ret Act unit :=
  job <-
    rcatch
      (j <- rawait_settled (get_job_of body) ;; RRet (Some j))
      (fun error => rdo (Respond 400 (ErrorBody error)) ;; RRet None) ;;
  match job with
  | None => RRet tt
  | Some j =>
      rfinally
        (rcatch
           (box <- rawait (job_prime j) ;;
            result <- rawait (job_execute j box false) ;;
            rdo (Respond 200 (ResultBody (default_run result))))
           (fun error =>
              rdo (LogErr (Lit "Error executing job: " :: message error)) ;;
              rdo (Respond 500 NoBody)))
        (rcatch
           (rawait (job_cleanup j))
           (fun error =>
              rdo (LogErr (Lit "Error cleaning up job: " :: message error)) ;;
              rdo (Respond 500 NoBody)))
  end.

(** A [POST /execute] request through the router: the middleware first, the
    handler if it calls [next]. *)
Definition post_execute (req : Request) : Routine unit RouteOp route_ret Act unit :=
  passed <- content_type_gate req ;;
  if passed then execute_route (req_body req) else RRet tt.

End Execute.

(** *** [/connect] *)

(** The arms of the [switch] of [/connect]; there is no [default]. *)
Inductive ConnKind : Type := CInit | CData | CSignalKind | CNoArm.

Definition conn_kind (type : JsVal) : ConnKind :=
  match type with
  | VStr s =>
      if (s =? "init")%string then CInit
      else if (s =? "data")%string then CData
      else if (s =? "signal")%string then CSignalKind
      else CNoArm
  | _ => CNoArm
  end.

(** [a === b] on what [Array.prototype.includes] compares here: a value
    fresh from [JSON.parse] against the entries of a table.  An array or an
    object is never the same object as an entry. *)
Definition same_value (a b : JsVal) : bool :=
  match a, b with
  | VUndef, VUndef | VNull, VNull => true
  | VBool x, VBool y => Bool.eqb x y
  | VNum x, VNum y => x =? y
  | VStr x, VStr y => (x =? y)%string
  | _, _ => false
  end.

Section Connect.

Variable registry : string -> string -> option Runtime.

(** [Object.values(globals.SIGNALS)], from globals.js. *)
Variable SIGNALS : list JsVal.

Definition ConnRoutine : Type -> Type := Routine (option Job) RouteOp route_ret Act.

(** Reading the variable [job] where the source dereferences it. *)
Definition conn_job : ConnRoutine Job :=
  RRead (fun s =>
           match s with
           | Some j => RRet j
           | None => RThrow (error [Lit "Cannot read properties of null"])
           end).

(** The ['message'] listener of [/connect]. *)
Definition connect_message (data : Frame) : ConnRoutine unit :=
  rcatch
    match data with
    | Malformed why => RThrow (error why)
    | Json VNull => RThrow (error [Lit "Cannot read properties of null (reading 'type')"])
    | Json msg =>
        match conn_kind (prop msg "type") with
        | CInit =>
            RRead (fun s =>
              match s with
              | None =>
                  j <- rawait_settled (get_job registry msg) ;;
                  RWrite (Some j) (RRet tt) ;;
                  rfinally
                    (rcatch
                       (j <- conn_job ;;
                        box <- rawait (job_prime j) ;;
                        j <- conn_job ;;
                        rdo (WsSend (CRuntime (language (runtime j))
                                              (version_raw (runtime j)))) ;;
                        j <- conn_job ;;
                        rawait (job_execute j box true) ;;
                        RRet tt)
                       (fun error =>
                          rdo (LogErr (Lit "Error cleaning up job: " :: message error)) ;;
                          RThrow error))
                    (j <- conn_job ;; rawait (job_cleanup j)) ;;
                  rdo (WsClose 4999 "Job Completed")
              | Some _ => rdo (WsClose 4000 "Already Initialized")
              end)
        | CData =>
            RRead (fun s =>
              match s with
              | Some _ =>
                  if same_value (prop msg "stream") (VStr "stdin")
                  then rdo (Emit "stdin" (prop msg "data"))
                  else rdo (WsClose 4004 "Can only write to stdin")
              | None => rdo (WsClose 4003 "Not yet initialized")
              end)
        | CSignalKind =>
            RRead (fun s =>
              match s with
              | Some _ =>
                  if existsb (same_value (prop msg "signal")) SIGNALS
                  then rdo (Emit "signal" (prop msg "signal"))
                  else rdo (WsClose 4005 "Invalid signal")
              | None => rdo (WsClose 4003 "Not yet initialized")
              end)
        | CNoArm => RRet tt
        end
    end
    (fun error =>
       rdo (WsSend (CError (message error))) ;;
       rdo (WsClose 4002 "Notified Error")).

(** The callback of [setTimeout(..., 1000)]. *)
Definition connect_timeout : ConnRoutine unit :=
  RRead (fun s =>
           match s with
           | None => rdo (WsClose 4001 "Initialization Timeout")
           | Some _ => RRet tt
           end).

End Connect.

Local Close Scope routine_scope.

(** Reading the steps of a route. *)
Fixpoint responses (tr : list (@Step RouteOp Act)) : list Z :=
  match tr with
  | [] => []
  | Did (Respond status _) :: tr' => status :: responses tr'
  | _ :: tr' => responses tr'
  end.

Fixpoint ws_closes (tr : list (@Step RouteOp Act)) : list Z :=
  match tr with
  | [] => []
  | Did (WsClose code _) :: tr' => code :: ws_closes tr'
  | _ :: tr' => ws_closes tr'
  end.

Fixpoint ops_entered (tr : list (@Step RouteOp Act)) : list RouteOp :=
  match tr with
  | [] => []
  | Entered op :: tr' => op :: ops_entered tr'
  | _ :: tr' => ops_entered tr'
  end.

Definition is_route_cleanup (op : RouteOp) : bool :=
  match op with job_cleanup _ => true | _ => false end.

Definition is_route_execute (op : RouteOp) : bool :=
  match op with job_execute _ _ _ => true | _ => false end.

(** How [/connect] dispatches a frame: [None] when the listener throws
    before the [switch]. *)
Definition conn_kind_of_frame (data : Frame) : option ConnKind :=
  match data with
  | Malformed _ => None
  | Json VNull => None
  | Json msg => Some (conn_kind (prop msg "type"))
  end.

Definition count_ops (f : RouteOp -> bool) (tr : list (@Step RouteOp Act)) : nat :=
  List.length (filter f (ops_entered tr)).

(** ** tests/benchmark.js *)

Module Bench.

Record TestCase : Type := { input : string; expected : string }.

Record Config : Type := {
  baseUrl : string;
  wsUrl : string;
  language : string;
  version : string;
  code : string;
  testCases : list TestCase
}.

Definition nl : string := String (Ascii.ascii_of_nat 10) EmptyString.

Definition case (n r : string) : TestCase :=
  {| input := (n ++ nl)%string; expected := r |}.

(** The [config] of the file. *)
Definition config : Config :=
  {| baseUrl := "https://exec1.academy-os.in";
     wsUrl := "wss://exec1.academy-os.in";
     language := "python";
     version := "*";
     code := (nl ++ "n = int(input())" ++ nl ++ "print(n * 2)" ++ nl)%string;
     testCases :=
       [case "1" "2"; case "2" "4"; case "3" "6"; case "4" "8"; case "5" "10";
        case "10" "20"; case "15" "30"; case "20" "40"; case "25" "50";
        case "50" "100"; case "100" "200"; case "200" "400"; case "500" "1000";
        case "1000" "2000"; case "999" "1998"; case "123" "246"; case "456" "912";
        case "789" "1578"; case "42" "84"; case "7" "14"] |}.

(** The announcement at the end of [main]: [Math.min], then the two [if]s
    in their order. *)
Definition winner (execute judge batch : Z) : string :=
  let fastest := Z.min execute (Z.min judge batch) in
  let winner := "/execute" in
  let winner := if fastest =? judge then "/judge (each)" else winner in
  let winner := if fastest =? batch then "/judge (batch)" else winner in
  winner.

(** An element of [results] in [benchmarkJudgeAPI]. *)
Record Entry : Type := {
  testId : JsVal;
  passed : bool;
  entry_expected : string;
  actual : JsVal;
  time : JsVal
}.

(** The variables of [benchmarkJudgeAPI] that its listeners share. *)
Record State : Type := {
  results : list Entry;
  currentTest : nat;
  compileTime : JsVal
}.

Definition initial : State :=
  {| results := []; currentTest := 0%nat; compileTime := VNum 0 |}.

(** What the promise of [benchmarkJudgeAPI] is resolved with. *)
Inductive Summary : Type :=
| Judged (totalTime : Z) (results : list Entry) (passedCount : nat) (compileTime : JsVal)
| Failed (error : string) (totalTime : Z).

Inductive Act : Type :=
| ClientSend (frame : JsVal)     (* ws.send(JSON.stringify(frame)) *)
| ClientClose                    (* ws.close() *)
| ClientResolve (s : Summary)    (* resolve(s) *)
| ClientLog (t : Text).          (* console.log(t), without its pictographs *)

(** The listeners are synchronous: they await nothing. *)
Definition no_ret (op : Empty_set) : Type := unit.

Definition Listener : Type -> Type := Routine State Empty_set no_ret Act.

Definition nothing_awaited : nat -> forall op : Empty_set, Outcome (no_ret op) :=
  fun _ op => match op with end.

Local Open Scope routine_scope.

(** The frame sent on ['open']. *)
Definition init_frame (cfg : Config) : JsVal :=
  VObj [("type", VStr "init"); ("language", VStr (language cfg));
        ("version", VStr (version cfg));
        ("files", VArr [VObj [("content", VStr (code cfg))]])].

Definition run_test_frame (tc : TestCase) (index : nat) : JsVal :=
  VObj [("type", VStr "run_test"); ("stdin", VStr (input tc));
        ("test_id", VNum (Z.of_nat index + 1))].

Definition close_frame : JsVal := VObj [("type", VStr "close")].

Section Client.

Variable cfg : Config.

(** [String.prototype.trim] *)
Variable trim : string -> string.

(** [sendNextTest]; [testCases[currentTest]] is [undefined] past the end. *)
Definition sendNextTest : Listener unit :=
  RRead (fun st =>
    match nth_error (testCases cfg) (currentTest st) with
    | Some tc => rdo (ClientSend (run_test_frame tc (currentTest st)))
    | None => RThrow (error [Lit "Cannot read properties of undefined (reading 'input')"])
    end).

(** [msg.stdout?.trim()] *)
Definition trimmed (stdout : JsVal) : Listener JsVal :=
  match stdout with
  | VStr s => RRet (VStr (trim s))
  | VUndef | VNull => RRet VUndef
  | _ => RThrow (error [Lit "msg.stdout?.trim is not a function"])
  end.

(** [actual === tc.expected] *)
Definition agrees (actual : JsVal) (expected : string) : bool :=
  match actual with
  | VStr a => (a =? expected)%string
  | _ => false
  end.

Definition wire_time (t : option Z) : JsVal :=
  match t with
  | Some n => VNum n
  | None => VUndef
  end.

(** The ['message'] listener of [benchmarkJudgeAPI], on the message the
    server sent; [now] is what [Date.now()] reads during this call and
    [startTime] what it read when the benchmark began. *)
Definition on_message (startTime now : Z) (msg : OutMsg) : Listener unit :=
  match msg with
  | MCompiled success time _ stderr _ =>
      RRead (fun st =>
        RWrite {| results := results st; currentTest := currentTest st;
                  compileTime := js_or time (VNum 0) |}
          (if success then
             rdo (ClientLog [Lit "   Compiled in "; Interp (js_or time (VNum 0)); Lit "ms"]) ;;
             sendNextTest
           else
             rdo (ClientLog [Lit "   Compilation failed: "; Interp stderr]) ;;
             rdo ClientClose ;;
             rdo (ClientResolve (Failed "Compilation failed" (now - startTime)))))
  | MResult test_id r =>
      RRead (fun st =>
        actual <- trimmed (TestResult.stdout r) ;;
        match nth_error (testCases cfg) (currentTest st) with
        | None => RThrow (error [Lit "Cannot read properties of undefined (reading 'expected')"])
        | Some tc =>
            RWrite {| results := results st ++
                        [{| testId := test_id; passed := agrees actual (expected tc);
                            entry_expected := expected tc; actual := actual;
                            time := wire_time (TestResult.wall_time r) |}];
                      currentTest := currentTest st;
                      compileTime := compileTime st |}
              (rdo (ClientLog [Lit "   Test "; Interp test_id; Lit ": ";
                               Interp (VBool (agrees actual (expected tc))); Lit " | ";
                               Interp (wire_time (TestResult.wall_time r)); Lit "ms"]) ;;
               RRead (fun st' =>
                 RWrite {| results := results st'; currentTest := S (currentTest st');
                           compileTime := compileTime st' |}
                   (if (S (currentTest st') <? List.length (testCases cfg))%nat
                    then sendNextTest
                    else rdo (ClientSend close_frame))))
        end)
  | MDone _ _ =>
      RRead (fun st =>
        rdo (ClientLog [Lit "   Results: ";
                        Interp (VNum (Z.of_nat (List.length (filter passed (results st)))));
                        Lit "/"; Interp (VNum (Z.of_nat (List.length (results st))));
                        Lit " passed"]) ;;
        rdo (ClientLog [Lit "   Total time: "; Interp (VNum (now - startTime));
                        Lit "ms (compile: "; Interp (compileTime st); Lit "ms)"]) ;;
        rdo ClientClose ;;
        rdo (ClientResolve (Judged (now - startTime) (results st)
                                   (List.length (filter passed (results st)))
                                   (compileTime st))))
  | MError _ message =>
      rdo (ClientLog (Lit "   Error: " :: message))
  | _ => RRet tt
  end.

End Client.

Local Close Scope routine_scope.

(** The frames a listener run sent. *)
Fixpoint frames_sent (tr : list (@Step Empty_set Act)) : list JsVal :=
  match tr with
  | [] => []
  | Did (ClientSend frame) :: tr' => frame :: frames_sent tr'
  | _ :: tr' => frames_sent tr'
  end.

Fixpoint resolutions (tr : list (@Step Empty_set Act)) : list Summary :=
  match tr with
  | [] => []
  | Did (ClientResolve s) :: tr' => s :: resolutions tr'
  | _ :: tr' => resolutions tr'
  end.

(** *** The benchmark client against the [/judge] listener

    The client sends a frame only in answer to a message, and the server
    sends the last message of a listener run at its end; so each frame
    arrives with no listener in flight, and the server side of the exchange
    is [handle]. *)
Record Wire : Type := {
  server : Session;
  server_calls : nat;
  client : State;
  to_server : list JsVal;       (* frames sent and not yet handled *)
  heard : list OutMsg;          (* what the server has sent, oldest first *)
  resolved : list Summary;      (* what the promise was resolved with *)
  thrown : bool                 (* a client listener threw *)
}.

Section Exchange.

Variable registry : string -> string -> option Runtime.
Variable env : Env.
Variable cfg : Config.
Variable trim : string -> string.

(** [Date.now()] as a function of how many messages the client has heard. *)
Variable clock : nat -> Z.

Definition opening : Wire :=
  {| server := fresh; server_calls := 0%nat; client := initial;
     to_server := [init_frame cfg]; heard := []; resolved := []; thrown := false |}.

(** The client hears one message. *)
Definition hear (w : Wire) (msg : OutMsg) : Wire :=
  let r := rrun nothing_awaited
             (on_message cfg trim (clock 0%nat) (clock (S (List.length (heard w)))) msg)
             0%nat (client w) in
  {| server := server w; server_calls := server_calls w;
     client := left r;
     to_server := to_server w ++ frames_sent (steps r);
     heard := heard w ++ [msg];
     resolved := resolved w ++ resolutions (steps r);
     thrown := thrown w || match ended r with Rejected _ => true | Resolved _ => false end |}.

(** The server handles the oldest frame, and the client hears what it
    sent. *)
Definition serve (w : Wire) : Wire :=
  match to_server w with
  | [] => w
  | frame :: rest =>
      let r := handle registry env (Json frame) (server_calls w) (server w) in
      fold_left hear (sent (trace r))
        {| server := after r; server_calls := calls r; client := client w;
           to_server := rest; heard := heard w; resolved := resolved w;
           thrown := thrown w |}
  end.

Fixpoint exchange (rounds : nat) (w : Wire) : Wire :=
  match rounds with
  | O => w
  | S rounds' => exchange rounds' (serve w)
  end.

End Exchange.

End Bench.

(** A [stdout] on which the client's [msg.stdout?.trim()] does not throw. *)
Definition readable (stdout : JsVal) : Prop :=
  (exists s, stdout = VStr s) \/ stdout = VUndef \/ stdout = VNull.

(** [1, 2, ..., n] as the client numbers its tests. *)
Definition ids_upto (n : nat) : list JsVal :=
  map (fun i => VNum (Z.of_nat i + 1)) (seq 0 n).

(** The [result] messages among what the server sent: their [test_id] and
    what the run returned. *)
Fixpoint heard_results (heard : list OutMsg) : list (JsVal * TestResult.t) :=
  match heard with
  | [] => []
  | MResult id r :: heard' => (id, r) :: heard_results heard'
  | _ :: heard' => heard_results heard'
  end.

(** The entry a [result] for case [tc] should leave in [results]: it passed
    when its [stdout] is a string that, trimmed, is the expected output of
    that case. *)
Definition judged (trim : string -> string) (tc : Bench.TestCase)
    (answer : JsVal * TestResult.t) : Bench.Entry :=
  {| Bench.testId := fst answer;
     Bench.passed :=
       match TestResult.stdout (snd answer) with
       | VStr s => (trim s =? Bench.expected tc)%string
       | _ => false
       end;
     Bench.entry_expected := Bench.expected tc;
     Bench.actual :=
       match TestResult.stdout (snd answer) with
       | VStr s => VStr (trim s)
       | _ => VUndef
       end;
     Bench.time :=
       match TestResult.wall_time (snd answer) with
       | Some ms => VNum ms
       | None => VUndef
       end |}.

(** Case by case, in order. *)
Fixpoint judged_all (trim : string -> string) (tcs : list Bench.TestCase)
    (answers : list (JsVal * TestResult.t)) : list Bench.Entry :=
  match tcs, answers with
  | tc :: tcs', answer :: answers' => judged trim tc answer :: judged_all trim tcs' answers'
  | _, _ => []
  end.

(** What holds between two tests: [i] tests are done on both sides, and the
    frame of test [i], if there is one, or else [close], is on its way. *)
Definition between (cfg : Bench.Config) (trim : string -> string) (j : Job)
    (i : nat) (w : Bench.Wire) : Prop :=
  Bench.results (Bench.client w) =
    judged_all trim (firstn i (Bench.testCases cfg)) (heard_results (Bench.heard w)) /\
  map fst (heard_results (Bench.heard w)) = ids_upto i /\
  job (Bench.server w) = Some j /\
  isCompiled (Bench.server w) = true /\
  testCount (Bench.server w) = Z.of_nat i /\
  Bench.currentTest (Bench.client w) = i /\
  map Bench.testId (Bench.results (Bench.client w)) = ids_upto i /\
  map Bench.entry_expected (Bench.results (Bench.client w)) =
    map Bench.expected (firstn i (Bench.testCases cfg)) /\
  Bench.to_server w =
    match nth_error (Bench.testCases cfg) i with
    | Some tc => [Bench.run_test_frame tc i]
    | None => [Bench.close_frame]
    end /\
  Bench.resolved w = [] /\
  Bench.thrown w = false.

(** ** More of the small installation *)

Module Sample.

(** The Job of [Demo.env] with runs that reject. *)
Definition env_run_fails : Env :=
  fun n op =>
    match op as o return Outcome (ret_type o) with
    | runTest _ _ _ _ _ => Rejected (error [Lit "spawn failed"])
    | o => Demo.env n o
    end.

Definition executed : Executed.t :=
  {| Executed.language := VStr "python"; Executed.version := VStr "3.10.0";
     Executed.compile := VUndef;
     Executed.run := VObj [("stdout", VStr "10"); ("code", VNum 0)] |}.

(** A Job on which [prime], [execute] and [cleanup] resolve. *)
Definition answers : RouteEnv :=
  fun _ op =>
    match op as o return Outcome (route_ret o) with
    | job_prime _ => Resolved (VStr "box")
    | job_execute _ _ _ => Resolved executed
    | job_cleanup _ => Resolved tt
    end.



Definition SIGNALS : list JsVal := [VStr "SIGKILL"; VStr "SIGTERM"; VStr "SIGINT"].

(** An [init] with two limits of its own, and the job [get_job] makes of
    it. *)
Definition limited : JsVal :=
  Demo.init "python" [Demo.source "print(1)"]
    [("run_timeout", VNum 2000); ("compile_timeout", VNum 0)].

Definition job_limited : Job :=
  {| runtime := Demo.python; args := VArr []; stdin := VStr "";
     files := [Demo.source "print(1)"];
     job_timeouts := {| for_compile := VNum 0; for_run := VNum 2000 |};
     job_cpu_times := {| for_compile := VNum 10000; for_run := VNum 3000 |};
     job_memory_limits := {| for_compile := VNum (-1); for_run := VNum (-1) |} |}.

(** The job [get_job] makes of the [init] of the benchmark. *)
Definition job_bench : Job :=
  {| runtime := Demo.python; args := VArr []; stdin := VStr "";
     files := [VObj [("content", VStr (Bench.code Bench.config))]];
     job_timeouts := {| for_compile := VNum 10000; for_run := VNum 3000 |};
     job_cpu_times := {| for_compile := VNum 10000; for_run := VNum 3000 |};
     job_memory_limits := {| for_compile := VNum (-1); for_run := VNum (-1) |} |}.

(** Frames none of which creates a job. *)
Definition idle_frames : list Frame :=
  [Json (Demo.run_test []); Json (Demo.init "cobol" [Demo.source "x"] []);
   Malformed [Lit "Unexpected token"]; Json Demo.close].

Definition post (content_type : option string) (body : JsVal) : Request :=
  {| method := "POST"; content_type := content_type; req_body := body |}.

End Sample.

(** * Properties *)

Section Properties.

Variable registry : string -> string -> option Runtime.
Variable env : Env.

Lemma kind_of_frame_json (msg : JsVal) (k : Kind) :
  kind_of_frame (Json msg) = Some k -> kind_of (prop msg "type") = k.
Proof.
  destruct msg; simpl; intros H; inversion H; reflexivity.
Qed.

(** Past [JSON.parse] and [msg.type], the listener is the arm of the
    [switch] inside the outer [try]. *)
Lemma on_message_switch (msg : JsVal) (k : Kind) :
  kind_of_frame (Json msg) = Some k ->
  on_message registry (Json msg) =
  try_catch
    match k with
    | KInit => init_case registry msg
    | KRunTest => run_test_case msg
    | KRunBatch => run_batch_case msg
    | KClose => close_case
    | KDefault => default_case msg
    end
    (fun error =>
       sendMessage (MError None (message error)) ;;
       ws_close 4002 "Notified Error").
Proof.
  intros H. pose proof (kind_of_frame_json _ _ H) as Hk.
  destruct msg; simpl in H; try discriminate;
    unfold on_message; rewrite Hk; reflexivity.
Qed.

(** ** Before [init] *)

(** C4, amended.  While [job] is still [null], a [run_test] or a [run_batch]
    only closes the socket with 4003; a [close] is answered with [done] and
    the 4999 close, and an unknown type with an [error] and no close.  None
    of them touches the session. *)
Theorem opening_commands (n : nat) (s : Session) (msg : JsVal) (k : Kind) :
  job s = None ->
  kind_of_frame (Json msg) = Some k ->
  k <> KInit ->
  handle registry env (Json msg) n s =
  {| trace :=
       match k with
       | KRunTest | KRunBatch => [CloseWs 4003 "Not yet initialized"]
       | KClose => [Send (MDone (testCount s) (totalTime s));
                    CloseWs 4999 "Session Completed"]
       | _ => [Send (MError None [Lit "Unknown message type: ";
                                  Interp (prop msg "type")])]
       end;
     after := s; calls := n; value := Resolved tt |}.
Proof.
  intros Hj Hk Hinit. unfold handle. rewrite (on_message_switch _ _ Hk).
  destruct k; try congruence; simpl; try rewrite Hj; reflexivity.
Qed.

(** ** [close] *)

(** C9 on the explicit [close] path: when [job.cleanup()] rejects there, the
    rejection reaches the outer [catch], which sends it to the client and
    closes with 4002 in place of 4999. *)
Theorem close_reports_cleanup_error
    (n : nat) (s : Session) (msg : JsVal) (j : Job) (e : Exn) :
  job s = Some j ->
  kind_of_frame (Json msg) = Some KClose ->
  env n (cleanup j) = Rejected e ->
  handle registry env (Json msg) n s =
  {| trace := [Send (MDone (testCount s) (totalTime s)); Call (cleanup j);
               Send (MError None (message e)); CloseWs 4002 "Notified Error"];
     after := s; calls := S n; value := Resolved tt |}.
Proof.
  intros Hj Hk He. unfold handle. rewrite (on_message_switch _ _ Hk).
  simpl. rewrite Hj. simpl. rewrite He. reflexivity.
Qed.

(** The same path when [cleanup] resolves. *)
Lemma close_completes (n : nat) (s : Session) (msg : JsVal) (j : Job) :
  job s = Some j ->
  kind_of_frame (Json msg) = Some KClose ->
  env n (cleanup j) = Resolved tt ->
  handle registry env (Json msg) n s =
  {| trace := [Send (MDone (testCount s) (totalTime s)); Call (cleanup j);
               CloseWs 4999 "Session Completed"];
     after := s; calls := S n; value := Resolved tt |}.
Proof.
  intros Hj Hk He. unfold handle. rewrite (on_message_switch _ _ Hk).
  simpl. rewrite Hj. simpl. rewrite He. reflexivity.
Qed.

(** ** [run_test] and [run_batch] *)






(** An accepted [run_test] whose run resolves. *)
Lemma run_test_accepted
    (n : nat) (s : Session) (msg : JsVal) (j : Job) (r : TestResult.t) :
  job s = Some j ->
  isCompiled s = true ->
  kind_of_frame (Json msg) = Some KRunTest ->
  env n (runTest j (js_or (prop msg "stdin") (VStr ""))
                   (js_or (prop msg "timeout") VNull)
                   (js_or (prop msg "cpu_time") VNull)
                   (js_or (prop msg "memory_limit") VNull)) = Resolved r ->
  handle registry env (Json msg) n s =
  {| trace := [Call (runTest j (js_or (prop msg "stdin") (VStr ""))
                               (js_or (prop msg "timeout") VNull)
                               (js_or (prop msg "cpu_time") VNull)
                               (js_or (prop msg "memory_limit") VNull));
               Send (MResult (js_or (prop msg "test_id") (VNum (testCount s + 1))) r)];
     after := set_totalTime (totalTime s + or_zero (TestResult.wall_time r))
                (set_testCount (testCount s + 1) s);
     calls := S n; value := Resolved tt |}.
Proof.
  intros Hj Hc Hk Hr. unfold handle. rewrite (on_message_switch _ _ Hk).
  simpl. rewrite Hj, Hc. simpl. rewrite Hr. reflexivity.
Qed.

(** An accepted [run_batch] whose run resolves: the two counters are
    assigned, not added to. *)
Lemma run_batch_accepted
    (n : nat) (s : Session) (msg : JsVal) (j : Job)
    (c : JsVal) (cs : list JsVal) (r : BatchResult.t) :
  job s = Some j ->
  isCompiled s = true ->
  kind_of_frame (Json msg) = Some KRunBatch ->
  prop msg "test_cases" = VArr (c :: cs) ->
  env n (runBatched j (VArr (c :: cs))
                      (js_or (prop msg "timeout") VNull)
                      (js_or (prop msg "cpu_time") VNull)
                      (js_or (prop msg "memory_limit") VNull)) = Resolved r ->
  handle registry env (Json msg) n s =
  {| trace := [Call (runBatched j (VArr (c :: cs))
                                  (js_or (prop msg "timeout") VNull)
                                  (js_or (prop msg "cpu_time") VNull)
                                  (js_or (prop msg "memory_limit") VNull));
               Send (MBatchResult (Z.of_nat (List.length (c :: cs))) r)];
     after := set_totalTime (or_zero (BatchResult.total_time r))
                (set_testCount (Z.of_nat (List.length (c :: cs))) s);
     calls := S n; value := Resolved tt |}.
Proof.
  intros Hj Hc Hk Hcases Hr. unfold handle. rewrite (on_message_switch _ _ Hk).
  cbn -[Z.of_nat List.length]. rewrite Hj, Hc. cbn -[Z.of_nat List.length].
  rewrite Hcases. cbn -[Z.of_nat List.length]. rewrite Hr. reflexivity.
Qed.



(** ** [init] *)

(** [get_job] rejects: one [error], the 4002 close, and nothing else. *)
Lemma init_rejected (n : nat) (s : Session) (msg : JsVal) (e : Exn) :
  job s = None ->
  kind_of_frame (Json msg) = Some KInit ->
  get_job registry msg = Rejected e ->
  handle registry env (Json msg) n s =
  {| trace := [Send (MError None (message e)); CloseWs 4002 "Notified Error"];
     after := s; calls := n; value := Resolved tt |}.
Proof.
  intros Hj Hk Hg. unfold handle. rewrite (on_message_switch _ _ Hk).
  unfold init_case. cbn -[get_job]. rewrite Hj. cbn -[get_job]. rewrite Hg.
  reflexivity.
Qed.

(** The compile stage succeeds. *)
Lemma init_compiles
    (n : nat) (s : Session) (msg : JsVal) (j : Job) (b : Box) (cr : CompileResult.t) :
  job s = None ->
  kind_of_frame (Json msg) = Some KInit ->
  get_job registry msg = Resolved j ->
  env n (prime j) = Resolved b ->
  env (S n) (compileOnly j b) = Resolved cr ->
  CompileResult.success cr = true ->
  handle registry env (Json msg) n s =
  {| trace := [Call (prime j); Send (ready_message j);
               Call (compileOnly j b); Send (compiled_message cr)];
     after := set_isCompiled true (set_box b (set_job j s));
     calls := S (S n); value := Resolved tt |}.
Proof.
  intros Hj Hk Hg Hp Hc Hs. unfold handle. rewrite (on_message_switch _ _ Hk).
  unfold init_case. cbn -[get_job]. rewrite Hj. cbn -[get_job]. rewrite Hg.
  cbn. rewrite Hp. cbn. rewrite Hc. cbn. rewrite Hs. cbn.
  unfold compiled_message. rewrite Hs. reflexivity.
Qed.


(** The compile stage fails and the cleanup that follows rejects: the
    rejection is caught by the inner [catch], which logs it, sends it to the
    client, tries the cleanup again and closes with 4002, not 4006. *)
Lemma init_compile_fails_cleanup_rejects
    (n : nat) (s : Session) (msg : JsVal) (j : Job) (b : Box) (cr : CompileResult.t)
    (e : Exn) :
  job s = None ->
  kind_of_frame (Json msg) = Some KInit ->
  get_job registry msg = Resolved j ->
  env n (prime j) = Resolved b ->
  env (S n) (compileOnly j b) = Resolved cr ->
  CompileResult.success cr = false ->
  env (S (S n)) (cleanup j) = Rejected e ->
  trace (handle registry env (Json msg) n s) =
  [Call (prime j); Send (ready_message j);
   Call (compileOnly j b); Send (compiled_message cr);
   Call (cleanup j);
   LogError (Lit "Error initializing job: " :: message e);
   Send (MError None (message e)); Call (cleanup j)] ++
  match env (S (S (S n))) (cleanup j) with
  | Resolved _ => [CloseWs 4002 "Notified Error"]
  | Rejected e' => [Send (MError None (message e')); CloseWs 4002 "Notified Error"]
  end.
Proof.
  intros Hj Hk Hg Hp Hc Hs Hcl. unfold handle. rewrite (on_message_switch _ _ Hk).
  unfold init_case. cbn -[get_job]. rewrite Hj. cbn -[get_job]. rewrite Hg.
  cbn. rewrite Hp. cbn. rewrite Hc. cbn. rewrite Hs. cbn. rewrite Hcl. cbn.
  unfold compiled_message. rewrite Hs.
  destruct (env (S (S (S n))) (cleanup j)); reflexivity.
Qed.



(** ** Frames in general *)

Lemma handle_malformed (why : Text) (n : nat) (s : Session) :
  handle registry env (Malformed why) n s =
  {| trace := [Send (MError None why); CloseWs 4002 "Notified Error"];
     after := s; calls := n; value := Resolved tt |}.
Proof. reflexivity. Qed.

Lemma handle_null (n : nat) (s : Session) :
  handle registry env (Json VNull) n s =
  {| trace := [Send (MError None [Lit "Cannot read properties of null (reading 'type')"]);
               CloseWs 4002 "Notified Error"];
     after := s; calls := n; value := Resolved tt |}.
Proof. reflexivity. Qed.

Lemma frame_cases (data : Frame) :
  (exists why, data = Malformed why) \/ data = Json VNull \/
  (exists msg k, data = Json msg /\ kind_of_frame (Json msg) = Some k).
Proof.
  destruct data as [why | msg]; [left; eauto |].
  destruct msg;
    solve [right; left; reflexivity
          | right; right; do 2 eexists; split; reflexivity].
Qed.

(** A second [init] only closes with 4000. *)
Lemma init_again (n : nat) (s : Session) (msg : JsVal) (j : Job) :
  job s = Some j ->
  kind_of_frame (Json msg) = Some KInit ->
  handle registry env (Json msg) n s =
  {| trace := [CloseWs 4000 "Already Initialized"];
     after := s; calls := n; value := Resolved tt |}.
Proof.
  intros Hj Hk. unfold handle. rewrite (on_message_switch _ _ Hk).
  unfold init_case. cbn -[get_job]. rewrite Hj. reflexivity.
Qed.







(** ** Cleanup *)


(** With a job in place, only a [close] frame makes the ['message']
    listener call [cleanup]; and no frame replaces the job. *)
Lemma quiet_frame (data : Frame) (n : nat) (s : Session) (j : Job) :
  job s = Some j ->
  is_close_frame data = false ->
  cleanup_count (trace (handle registry env data n s)) = 0%nat /\
  job (after (handle registry env data n s)) = Some j.
Proof.
  intros Hj Hq.
  destruct (frame_cases data) as [[why ->] | [-> | (msg & k & -> & Hk)]].
  - rewrite handle_malformed. auto.
  - rewrite handle_null. auto.
  - unfold is_close_frame in Hq. rewrite Hk in Hq. destruct k; try discriminate.
    + rewrite (init_again n s msg j Hj Hk). auto.
    + unfold handle. rewrite (on_message_switch _ _ Hk).
      cbn. rewrite Hj. destruct (isCompiled s); cbn; auto.
      destruct (env n (runTest j _ _ _ _)); cbn; auto.
    + unfold handle. rewrite (on_message_switch _ _ Hk).
      cbn -[Z.of_nat]. rewrite Hj. destruct (isCompiled s); cbn -[Z.of_nat]; auto.
      destruct (prop msg "test_cases") as [| | | | | [| c cs] |]; cbn -[Z.of_nat]; auto.
      destruct (env n (runBatched j _ _ _ _)); cbn -[Z.of_nat]; auto.
    + unfold handle. rewrite (on_message_switch _ _ Hk). cbn. auto.
Qed.






(** ** Validation at [init] *)

Lemma check_constraint_refuses (rt : Runtime) (body : JsVal) (c : Constraint) (t : Stage) :
  refused_limit rt c t (prop body (constraint_name c t)) ->
  exists e, check_constraint rt body (c, t) = Some e.
Proof.
  unfold refused_limit, check_constraint. intros [Ht Hv]. rewrite Ht. cbn [negb].
  destruct (prop body (constraint_name c t)) as [| | b | n | x | l | l];
    try (eexists; reflexivity).
  destruct Hv as [Hpos Hn].
  destruct (Z.leb_spec (configured_limit rt c t) 0); [lia |].
  destruct (Z.gtb_spec n (configured_limit rt c t)); [eexists; reflexivity |].
  destruct (Z.ltb_spec n 0); [eexists; reflexivity | lia].
Qed.

(** What the validation lets through: a falsy value, and any number when
    the configured limit is zero or negative. *)
Lemma check_constraint_passes (rt : Runtime) (body : JsVal) (c : Constraint) (t : Stage) :
  truthy (prop body (constraint_name c t)) = false \/
  (configured_limit rt c t <= 0 /\
   exists n, prop body (constraint_name c t) = VNum n) ->
  check_constraint rt body (c, t) = None.
Proof.
  unfold check_constraint. intros [Hf | [Hl [n Hn]]].
  - rewrite Hf. reflexivity.
  - rewrite Hn. destruct (truthy (VNum n)); [| reflexivity]. cbn [negb].
    destruct (Z.leb_spec (configured_limit rt c t) 0); [reflexivity | lia].
Qed.

Lemma first_error_finds {A} (f : A -> option Exn) (l : list A) (x : A) (e : Exn) :
  In x l -> f x = Some e -> exists e', first_error f l = Some e'.
Proof.
  induction l as [| y l IH]; intros Hin Hx; [contradiction |].
  simpl. destruct (f y) eqn:Hy; [eauto |].
  destruct Hin as [-> | Hin]; [congruence | auto].
Qed.

Lemma every_constraint_checked (c : Constraint) (t : Stage) :
  In (c, t) constraint_pairs.
Proof. destruct c, t; simpl; auto 7. Qed.

Ltac rejected := solve [eexists; reflexivity].

Lemma get_job_refuses_limit (body : JsVal) (c : Constraint) (t : Stage) :
  (forall rt, resolves_to registry body rt ->
              refused_limit rt c t (prop body (constraint_name c t))) ->
  exists e, get_job registry body = Rejected e.
Proof.
  intros H. unfold get_job.
  destruct (prop body "language") as [| | | | lang | |] eqn:Hl; try rejected.
  destruct (lang =? "")%string; try rejected.
  destruct (prop body "version") as [| | | | ver | |] eqn:Hv; try rejected.
  destruct (ver =? "")%string; try rejected.
  destruct (prop body "files") as [| | | | | fs |]; try rejected.
  destruct (check_contents 0 fs); try rejected.
  destruct (registry lang ver) as [rt |] eqn:Hrt; try rejected.
  destruct (negb (language rt =? "file")%string && negb (existsb utf8_file fs));
    try rejected.
  assert (Hr : resolves_to registry body rt) by (exists lang, ver; auto).
  destruct (check_constraint_refuses rt body c t (H rt Hr)) as [e He].
  destruct (first_error_finds _ _ _ _ (every_constraint_checked c t) He) as [e' He'].
  rewrite He'. rejected.
Qed.

Lemma get_job_refuses_files (body : JsVal) :
  refused_files registry body ->
  exists e, get_job registry body = Rejected e.
Proof.
  unfold refused_files, get_job. intros H.
  destruct (prop body "language") as [| | | | lang | |] eqn:Hl; try rejected.
  destruct (lang =? "")%string; try rejected.
  destruct (prop body "version") as [| | | | ver | |] eqn:Hv; try rejected.
  destruct (ver =? "")%string; try rejected.
  destruct (prop body "files") as [| | | | | [| f fs] |]; try rejected;
    [| contradiction].
  cbn [check_contents].
  destruct (registry lang ver) as [rt |] eqn:Hrt; try rejected.
  assert (Hr : resolves_to registry body rt) by (exists lang, ver; auto).
  apply H in Hr. apply String.eqb_neq in Hr. rewrite Hr. rejected.
Qed.

(** C3, amended.  At [init], a per-stage limit field whose value is truthy
    is refused when the value is not a number, and also when the runtime's
    configured limit is positive and the value is negative or above it: the
    session then sends one [error], closes with 4002, creates no job and
    calls none.  (A falsy value counts as not given, and a negative number
    passes when the configured limit is zero or negative.) *)
Theorem limits_validated
    (n : nat) (s : Session) (msg : JsVal) (c : Constraint) (t : Stage) :
  job s = None ->
  kind_of_frame (Json msg) = Some KInit ->
  (forall rt, resolves_to registry msg rt ->
              refused_limit rt c t (prop msg (constraint_name c t))) ->
  exists e,
    handle registry env (Json msg) n s =
    {| trace := [Send (MError None (message e)); CloseWs 4002 "Notified Error"];
       after := s; calls := n; value := Resolved tt |}.
Proof.
  intros Hj Hk H. destruct (get_job_refuses_limit msg c t H) as [e He].
  exists e. apply init_rejected; assumption.
Qed.

(** C5, amended.  An [init] whose [files] is missing or is not an array is
    refused whatever the runtime; one whose [files] is the empty array is
    refused unless the runtime of the request is the ['file'] one.  Refused
    means one [error], the 4002 close, no job and no Job call. *)
Theorem files_validated (n : nat) (s : Session) (msg : JsVal) :
  job s = None ->
  kind_of_frame (Json msg) = Some KInit ->
  refused_files registry msg ->
  exists e,
    handle registry env (Json msg) n s =
    {| trace := [Send (MError None (message e)); CloseWs 4002 "Notified Error"];
       after := s; calls := n; value := Resolved tt |}.
Proof.
  intros Hj Hk H. destruct (get_job_refuses_files msg H) as [e He].
  exists e. apply init_rejected; assumption.
Qed.

(** ** Order *)

Lemma in_order_app (tr tr' : list Event) :
  forall last,
  in_order last (tr ++ tr') =
  in_order last tr && in_order (fold_left last_sent tr last) tr'.
Proof.
  induction tr as [| ev tr IH]; intros last; [reflexivity |].
  cbn [app in_order fold_left]. rewrite IH. apply andb_assoc.
Qed.

(** Whatever was sent before, one run of the ['message'] listener keeps the
    order. *)
Lemma in_order_frame (data : Frame) (n : nat) (s : Session) (last : option OutMsg) :
  in_order last (trace (handle registry env data n s)) = true.
Proof.
  destruct (frame_cases data) as [[why ->] | [-> | (msg & k & -> & Hk)]].
  - reflexivity.
  - reflexivity.
  - unfold handle. rewrite (on_message_switch _ _ Hk). destruct k.
    + unfold init_case. cbn -[get_job].
      destruct (job s) as [j |]; [reflexivity |]. cbn -[get_job].
      destruct (get_job registry msg) as [j | e]; [| reflexivity]. cbn.
      destruct (env n (prime j)) as [b | e]; cbn.
      * destruct (env (S n) (compileOnly j b)) as [[[|] comp] | e]; cbn.
        -- reflexivity.
        -- destruct (env (S (S n)) (cleanup j)) as [[] | e]; cbn;
             [reflexivity |].
           destruct (env (S (S (S n))) (cleanup j)); reflexivity.
        -- destruct (env (S (S n)) (cleanup j)); reflexivity.
      * destruct (env (S n) (cleanup j)); reflexivity.
    + cbn. destruct (job s) as [j |]; [| reflexivity].
      destruct (isCompiled s); [| reflexivity]. cbn.
      destruct (env n (runTest j _ _ _ _)); reflexivity.
    + cbn -[Z.of_nat]. destruct (job s) as [j |]; [| reflexivity].
      destruct (isCompiled s); [| reflexivity].
      destruct (prop msg "test_cases") as [| | | | | [| c cs] |]; try reflexivity.
      cbn -[Z.of_nat]. destruct (env n (runBatched j _ _ _ _)); reflexivity.
    + cbn. destruct (job s) as [j |]; [| reflexivity]. cbn.
      destruct (env n (cleanup j)); reflexivity.
    + reflexivity.
Qed.

Lemma in_order_frames (frames : list Frame) :
  forall (n : nat) (s : Session) (last : option OutMsg),
  in_order last (trace (handle_all registry env frames n s)) = true.
Proof.
  induction frames as [| data frames IH]; intros n s last; [reflexivity |].
  cbn [handle_all trace]. rewrite in_order_app, in_order_frame, IH. reflexivity.
Qed.

(** Running a listener up to its next [await] and then to its end is
    running it to its end. *)
Lemma advance_completion (p : Async unit) :
  forall l : Loop,
  waiting l = [] ->
  (List.length (waiting (advance p l)) <= 1)%nat /\
  log (advance p l) ++ trace (completion env (advance p l)) =
    log l ++ trace (exec env p (made l) (vars l)) /\
  after (completion env (advance p l)) = after (exec env p (made l) (vars l)) /\
  calls (completion env (advance p l)) = calls (exec env p (made l) (vars l)).
Proof.
  induction p as [a | e | k IH | s k IH | ev k IH | k IH | op k IH]; intros l Hw.
  - unfold completion. cbn. rewrite Hw. cbn. auto.
  - unfold completion. cbn. rewrite Hw. cbn. auto.
  - cbn [advance exec]. apply IH, Hw.
  - cbn [advance exec].
    destruct (IH {| vars := s; made := made l; waiting := waiting l; log := log l |} Hw)
      as (H1 & H2 & H3 & H4).
    auto.
  - cbn [advance exec].
    destruct (IH {| vars := vars l; made := made l; waiting := waiting l;
                    log := log l ++ [ev] |} Hw) as (H1 & H2 & H3 & H4).
    cbn [vars made log] in *. repeat split; auto.
    rewrite H2. cbn [emit trace]. rewrite <- app_assoc. reflexivity.
  - unfold completion. cbn. rewrite Hw. cbn. auto.
  - unfold completion. cbn. rewrite Hw. cbn. rewrite <- app_assoc. auto.
Qed.

Lemma completion_idle (l : Loop) :
  waiting l = [] ->
  completion env l =
  {| trace := []; after := vars l; calls := made l; value := Resolved tt |}.
Proof. intros Hw. unfold completion. rewrite Hw. reflexivity. Qed.

(** With at most one listener in flight and frames that arrive only when
    none is, the loop does what handling the frames one after the other
    does. *)
Lemma one_at_a_time_log (ts : list Turn) :
  forall l : Loop,
  (List.length (waiting l) <= 1)%nat ->
  one_at_a_time registry env l ts = true ->
  waiting (turns registry env l ts) = [] ->
  log (turns registry env l ts) =
  log l ++ trace (completion env l) ++
  trace (handle_all registry env (arrivals ts)
           (calls (completion env l)) (after (completion env l))).
Proof.
  induction ts as [| t ts IH]; intros l Hlen Hone Hend.
  - cbn in *. rewrite (completion_idle l Hend). cbn. rewrite app_nil_r. reflexivity.
  - destruct t as [data | i].
    + cbn [one_at_a_time] in Hone.
      destruct (waiting l) as [| w ws] eqn:Hw; [| discriminate].
      cbn [turns fold_left turn] in *.
      destruct (advance_completion (on_message registry data) l Hw)
        as (H1 & H2 & H3 & H4).
      fold (turns registry env (advance (on_message registry data) l) ts) in *.
      rewrite (IH _ H1 Hone Hend).
      rewrite (completion_idle l Hw). cbn [trace after calls arrivals handle_all app].
      rewrite app_assoc, H2, H3, H4. unfold handle. rewrite <- app_assoc. reflexivity.
    + assert (Hone' : one_at_a_time registry env (turn registry env l (Settles i)) ts = true).
      { cbn [one_at_a_time] in Hone. destruct (waiting l); exact Hone. }
      cbn [turns fold_left] in *.
      fold (turns registry env (turn registry env l (Settles i)) ts) in *.
      cbn [arrivals].
      cbn [turn] in *.
      destruct (nth_error (waiting l) i) as [w |] eqn:Hi.
      * assert (Hl : i = 0%nat /\ waiting l = [w]).
        { destruct (waiting l) as [| w0 [| w1 ws]]; cbn in Hlen.
          - destruct i; discriminate.
          - destruct i as [| [| i]]; cbn in Hi; try discriminate.
            injection Hi as <-. auto.
          - lia. }
        destruct Hl as [-> Hl]. rewrite Hl in *. cbn [remove_nth] in *.
        set (l0 := {| vars := vars l; made := made l; waiting := []; log := log l |}) in *.
        destruct (advance_completion (resume env w) l0 eq_refl) as (H1 & H2 & H3 & H4).
        rewrite (IH _ H1 Hone' Hend).
        rewrite app_assoc, H2, H3, H4.
        unfold completion. rewrite Hl. cbn [l0 vars made log].
        rewrite <- app_assoc. reflexivity.
      * apply IH; assumption.
Qed.

(** C8, amended.  The ['message'] listener is [async] and the socket does
    not wait for it, so a frame that arrives while an earlier listener is
    suspended at an [await] is handled at once.  When every frame arrives
    with no listener in flight, as with a client that waits for each reply, the
    connection does exactly what handling the frames one after the other
    does; and then a [compiled] follows a [ready], the events of one frame
    precede those of the next, and the last message before a 4999 close is
    [done]. *)
Theorem serial_when_client_waits (ts : list Turn) :
  one_at_a_time registry env start ts = true ->
  waiting (turns registry env start ts) = [] ->
  log (turns registry env start ts) =
    trace (handle_all registry env (arrivals ts) 0%nat fresh) /\
  in_order None (log (turns registry env start ts)) = true.
Proof.
  intros Hone Hend.
  assert (Hlog : log (turns registry env start ts) =
                 trace (handle_all registry env (arrivals ts) 0%nat fresh)).
  { rewrite (one_at_a_time_log ts start (Nat.le_0_l 1) Hone Hend). reflexivity. }
  split; [exact Hlog |].
  rewrite Hlog. apply in_order_frames.
Qed.

(** ** More on [get_job] *)

Lemma check_contents_none (fs : list JsVal) :
  forall k, check_contents k fs = None <-> Forall has_content fs.
Proof.
  induction fs as [| f fs IH]; intros k; cbn [check_contents].
  - split; auto.
  - split.
    + intros H.
      assert (Hc : has_content f /\ check_contents (k + 1) fs = None).
      { destruct f; try discriminate; cbn in H |- *;
          try (destruct (is_string _); discriminate).
        unfold has_content. cbn.
        destruct (assoc "content" fields); try discriminate. eauto. }
      destruct Hc as [Hf Hrest]. constructor; [exact Hf | apply (IH (k + 1)), Hrest].
    + intros H. inversion H as [| ? ? [s Hs] Hrest]; subst.
      destruct f; cbn in Hs; try discriminate.
      cbn. rewrite Hs. cbn. apply IH, Hrest.
Qed.

Lemma first_error_none {A} (f : A -> option Exn) (l : list A) :
  first_error f l = None <-> Forall (fun x => f x = None) l.
Proof.
  induction l as [| x l IH]; cbn [first_error].
  - split; auto.
  - destruct (f x) eqn:Hx.
    + split; [discriminate |]. intros H. inversion H. congruence.
    + rewrite IH. split; [auto | intros H; inversion H; assumption].
Qed.

Lemma check_constraint_none (rt : Runtime) (body : JsVal) (c : Constraint) (t : Stage) :
  check_constraint rt body (c, t) = None <-> acceptable_limit rt body c t.
Proof.
  unfold check_constraint, acceptable_limit.
  destruct (truthy (prop body (constraint_name c t))) eqn:Ht; cbn [negb].
  - destruct (prop body (constraint_name c t)) as [| | b | n | x | l | l];
      try (split; [discriminate | intros [H | (n & H & _)]; discriminate]).
    destruct (Z.leb_spec (configured_limit rt c t) 0).
    + split; [| reflexivity]. intros _. right. exists n. auto.
    + destruct (Z.gtb_spec n (configured_limit rt c t)).
      * split; [discriminate |].
        intros [H' | (n' & Hn & Hb)]; [discriminate |]. injection Hn as <-. lia.
      * destruct (Z.ltb_spec n 0).
        -- split; [discriminate |].
           intros [H' | (n' & Hn & Hb)]; [discriminate |]. injection Hn as <-. lia.
        -- split; [| reflexivity]. intros _. right. exists n. split; [reflexivity | lia].
  - split; [auto | reflexivity].
Qed.

Lemma constraint_pairs_all (P : Constraint * Stage -> Prop) :
  Forall P constraint_pairs <-> forall c t, P (c, t).
Proof.
  split.
  - intros H c t. rewrite Forall_forall in H. apply H, every_constraint_checked.
  - intros H. apply Forall_forall. intros [c t] _. apply H.
Qed.

Lemma get_job_resolved_acceptable (body : JsVal) (rt : Runtime) (fs : list JsVal) :
  (exists j, get_job registry body = Resolved j /\ runtime j = rt /\ files j = fs) ->
  acceptable registry body rt fs.
Proof.
  intros (j & Hg & Hrt & Hfs). unfold get_job in Hg.
  destruct (prop body "language") as [| | | | lang | |] eqn:Hl; try discriminate.
  destruct (String.eqb_spec lang ""); try discriminate.
  destruct (prop body "version") as [| | | | ver | |] eqn:Hv; try discriminate.
  destruct (String.eqb_spec ver ""); try discriminate.
  destruct (prop body "files") as [| | | | | fs' |] eqn:Hf; try discriminate.
  destruct (check_contents 0 fs') eqn:Hc; try discriminate.
  destruct (registry lang ver) as [rt' |] eqn:Hr; try discriminate.
  destruct (negb (language rt' =? "file")%string && negb (existsb utf8_file fs'))
    eqn:Hu; try discriminate.
  destruct (first_error (check_constraint rt' body) constraint_pairs) eqn:He;
    try discriminate.
  injection Hg as <-. cbn in Hrt, Hfs. subst rt' fs'.
  exists lang, ver. repeat split; auto.
  + apply (check_contents_none fs 0), Hc.
  + apply andb_false_iff in Hu as [Hu | Hu]; apply negb_false_iff in Hu.
    * left. apply String.eqb_eq, Hu.
    * right. apply Exists_exists. apply existsb_exists in Hu. exact Hu.
  + intros c t. apply check_constraint_none.
    apply first_error_none in He.
    apply (proj1 (constraint_pairs_all (fun ct => check_constraint rt body ct = None)) He).
Qed.

Lemma acceptable_get_job_resolves (body : JsVal) (rt : Runtime) (fs : list JsVal) :
  acceptable registry body rt fs ->
  exists j, get_job registry body = Resolved j /\ runtime j = rt /\ files j = fs.
Proof.
  intros (lang & ver & Hl & Hln & Hv & Hvn & Hf & Hc & Hr & Hu & Hlim).
  unfold get_job. rewrite Hl, Hv, Hf.
  apply String.eqb_neq in Hln, Hvn. rewrite Hln, Hvn.
  rewrite (proj2 (check_contents_none fs 0) Hc), Hr.
  assert (Hu' : negb (language rt =? "file")%string && negb (existsb utf8_file fs) = false).
  { apply andb_false_iff. destruct Hu as [Hu | Hu].
    - left. apply negb_false_iff, String.eqb_eq, Hu.
    - right. apply negb_false_iff, existsb_exists. apply Exists_exists in Hu. exact Hu. }
  rewrite Hu'.
  assert (He : first_error (check_constraint rt body) constraint_pairs = None).
  { apply first_error_none. apply constraint_pairs_all.
    intros c t. apply check_constraint_none, Hlim. }
  rewrite He. eexists. repeat split; reflexivity.
Qed.

(** X1.  [get_job] resolves exactly for the requests that have a non-empty
    string [language] and [version], an array [files] whose members all have
    a string [content], a runtime in the registry, a utf8 file unless that
    runtime is the ['file'] one, and acceptable limits; the job then holds
    that runtime and those files. *)
Theorem get_job_accepts_exactly (body : JsVal) (rt : Runtime) (fs : list JsVal) :
  (exists j, get_job registry body = Resolved j /\ runtime j = rt /\ files j = fs) <->
  acceptable registry body rt fs.
Proof.
  split.
  - apply get_job_resolved_acceptable.
  - apply acceptable_get_job_resolves.
Qed.

Lemma get_job_limit_field (body : JsVal) (j : Job) (c : Constraint) (t : Stage) :
  get_job registry body = Resolved j ->
  job_limit j c t =
  js_nullish (prop body (constraint_name c t))
             (VNum (configured_limit (runtime j) c t)).
Proof.
  intros Hg. unfold get_job in Hg.
  destruct (prop body "language") as [| | | | lang | |]; try discriminate.
  destruct (lang =? "")%string; try discriminate.
  destruct (prop body "version") as [| | | | ver | |]; try discriminate.
  destruct (ver =? "")%string; try discriminate.
  destruct (prop body "files") as [| | | | | fs |]; try discriminate.
  destruct (check_contents 0 fs); try discriminate.
  destruct (registry lang ver) as [rt |]; try discriminate.
  destruct (negb (language rt =? "file")%string && negb (existsb utf8_file fs));
    try discriminate.
  destruct (first_error (check_constraint rt body) constraint_pairs); try discriminate.
  injection Hg as <-. destruct c, t; reflexivity.
Qed.

(** X2.  The limits of the job [get_job] makes: each is the runtime's
    configured limit when the request gives [null] or nothing for it, and
    otherwise the request's own value, unchanged, so that a [0], an empty
    string or a [false] is kept although the validation skipped it.  A
    truthy value that got through is a number, and when the configured limit
    is positive it lies in (0, limit]. *)
Theorem job_limits (body : JsVal) (j : Job) (c : Constraint) (t : Stage) :
  get_job registry body = Resolved j ->
  job_limit j c t =
    match prop body (constraint_name c t) with
    | VUndef | VNull => VNum (configured_limit (runtime j) c t)
    | v => v
    end /\
  (truthy (prop body (constraint_name c t)) = true ->
   exists n, prop body (constraint_name c t) = VNum n /\
             (0 < configured_limit (runtime j) c t ->
              0 < n <= configured_limit (runtime j) c t)).
Proof.
  intros Hg. split.
  - rewrite (get_job_limit_field body j c t Hg). unfold js_nullish.
    destruct (prop body (constraint_name c t)); reflexivity.
  - intros Ht.
    assert (Hacc : acceptable registry body (runtime j) (files j)).
    { apply get_job_resolved_acceptable. exists j. auto. }
    destruct Hacc as (lang & ver & _ & _ & _ & _ & _ & _ & _ & _ & Hlim).
    destruct (Hlim c t) as [Hf | (n & Hn & Hb)]; [congruence |].
    exists n. split; [exact Hn |]. intros Hpos.
    rewrite Hn in Ht. cbn in Ht. apply negb_true_iff, Z.eqb_neq in Ht. lia.
Qed.

(** X3.  When the loop over [files] rejects, it is at the first member that
    has no string [content]: every member before it has one, and the message
    names that member's index (or is the TypeError of reading [content] off
    a [null]). *)
Theorem check_contents_first (fs : list JsVal) :
  forall (k : Z) (e : Exn),
  check_contents k fs = Some e ->
  exists (i : nat) (f : JsVal),
    nth_error fs i = Some f /\
    ~ has_content f /\
    (forall i' f', (i' < i)%nat -> nth_error fs i' = Some f' -> has_content f') /\
    (e = error [Lit "files["; Interp (VNum (k + Z.of_nat i));
                Lit "].content is required as a string"] \/
     (f = VNull \/ f = VUndef) /\
     e = error [Lit "Cannot read properties of null (reading 'content')"]).
Proof.
  induction fs as [| f fs IH]; intros k e H; [discriminate |].
  cbn [check_contents] in H.
  assert (Hcases :
            (has_content f /\ check_contents (k + 1) fs = Some e) \/
            (~ has_content f /\
             (e = error [Lit "files["; Interp (VNum k);
                         Lit "].content is required as a string"] \/
              (f = VNull \/ f = VUndef) /\
              e = error [Lit "Cannot read properties of null (reading 'content')"]))).
  { unfold has_content.
    destruct f as [| | b | n | x | l | fields]; cbn in H |- *;
      try (right; split; [intros [s Hs]; discriminate |];
           injection H as <-; auto 6; fail).
    destruct (assoc "content" fields) eqn:Hc; cbn in H;
      try (right; split; [intros [s Hs]; discriminate |];
           injection H as <-; auto; fail).
    left. eauto. }
  destruct Hcases as [[Hf Hrest] | [Hf He]].
  - destruct (IH (k + 1) e Hrest) as (i & f' & Hi & Hbad & Hbefore & Hmsg).
    exists (S i), f'. repeat split; auto.
    + intros [| i'] f'' Hlt Hn; cbn in Hn.
      * injection Hn as <-. exact Hf.
      * apply (Hbefore i' f''); [lia | exact Hn].
    + destruct Hmsg as [-> | Hmsg]; [left | right; exact Hmsg].
      replace (k + Z.of_nat (S i)) with (k + 1 + Z.of_nat i) by lia. reflexivity.
  - exists 0%nat, f. repeat split; auto.
    + intros i' f' Hlt. lia.
    + destruct He as [-> | He]; [left | right; exact He].
      replace (k + Z.of_nat 0) with k by lia. reflexivity.
Qed.

(** ** More on the [/judge] listener *)

(** X4.  Once a job exists, an [init] is not looked at: whatever it
    contains, the socket is closed with 4000, nothing is sent, no Job method
    is called and the session is as before. *)
Theorem second_init_refused (n : nat) (s : Session) (msg : JsVal) (j : Job) :
  job s = Some j ->
  kind_of_frame (Json msg) = Some KInit ->
  handle registry env (Json msg) n s =
  {| trace := [CloseWs 4000 "Already Initialized"];
     after := s; calls := n; value := Resolved tt |}.
Proof. exact (init_again n s msg j). Qed.

(** An accepted [init] leaves the job in place, however [prime],
    [compileOnly] and [cleanup] turn out. *)
Lemma init_creates (n : nat) (s : Session) (msg : JsVal) (j : Job) :
  job s = None ->
  kind_of_frame (Json msg) = Some KInit ->
  get_job registry msg = Resolved j ->
  job (after (handle registry env (Json msg) n s)) = Some j.
Proof.
  intros Hj Hk Hg. unfold handle. rewrite (on_message_switch _ _ Hk).
  unfold init_case. cbn -[get_job]. rewrite Hj. cbn -[get_job]. rewrite Hg. cbn.
  destruct (env n (prime j)) as [b | e]; cbn.
  - destruct (env (S n) (compileOnly j b)) as [[[|] comp] | e]; cbn.
    + reflexivity.
    + destruct (env (S (S n)) (cleanup j)) as [[] | e]; cbn; [reflexivity |].
      destruct (env (S (S (S n))) (cleanup j)); reflexivity.
    + destruct (env (S (S n)) (cleanup j)); reflexivity.
  - destruct (env (S n) (cleanup j)); reflexivity.
Qed.

Lemma job_preserved (frames : list Frame) :
  forall (n : nat) (s : Session) (j : Job),
  job s = Some j ->
  job (after (handle_all registry env frames n s)) = Some j.
Proof.
  induction frames as [| data frames IH]; intros n s j Hj; [exact Hj |].
  cbn [handle_all after]. apply IH.
  destruct (is_close_frame data) eqn:Hq.
  - unfold is_close_frame in Hq.
    destruct (frame_cases data) as [[why ->] | [-> | (msg & k & -> & Hk)]];
      try discriminate.
    rewrite Hk in Hq. destruct k; try discriminate.
    unfold handle. rewrite (on_message_switch _ _ Hk). cbn. rewrite Hj. cbn.
    destruct (env n (cleanup j)); exact Hj.
  - apply (quiet_frame data n s j Hj Hq).
Qed.

(** X5.  On a connection whose frames are handled one after the other, no
    frame replaces or clears the job: once [job] is set it stays the same
    job through every later frame, also after [close], after a failed
    compile and after errors. *)
Theorem job_kept (frames : list Frame) (n : nat) (s : Session) (j : Job) :
  job s = Some j ->
  job (after (handle_all registry env frames n s)) = Some j.
Proof. apply job_preserved. Qed.

Lemma not_creating_frame (data : Frame) (n : nat) :
  creates_job registry data = false ->
  handle registry env data n fresh =
  {| trace := trace (handle registry env data n fresh);
     after := fresh; calls := n; value := Resolved tt |}.
Proof.
  intros Hc.
  destruct (frame_cases data) as [[why ->] | [-> | (msg & k & -> & Hk)]];
    try reflexivity.
  unfold creates_job in Hc. rewrite Hk in Hc.
  destruct k.
  - destruct (get_job registry msg) as [j | e] eqn:Hg; [discriminate |].
    rewrite (init_rejected n fresh msg e eq_refl Hk Hg). reflexivity.
  - unfold handle. rewrite (on_message_switch _ _ Hk). reflexivity.
  - unfold handle. rewrite (on_message_switch _ _ Hk). reflexivity.
  - unfold handle. rewrite (on_message_switch _ _ Hk). reflexivity.
  - unfold handle. rewrite (on_message_switch _ _ Hk). reflexivity.
Qed.

(** X6.  Only an [init] that passes [get_job] creates the job.  Frames among
    which there is none leave every variable of the session as it was at the
    start; the 5 s timer then closes the socket with 4001 (also when a
    rejected [init] has already closed it with 4002), and the ['close']
    listener has nothing to clean up. *)
Theorem no_job_without_init (frames : list Frame) :
  forall n : nat,
  forallb (fun data => negb (creates_job registry data)) frames = true ->
  after (handle_all registry env frames n fresh) = fresh /\
  (forall k, trace (exec env on_timeout k (after (handle_all registry env frames n fresh)))
             = [CloseWs 4001 "Initialization Timeout"]) /\
  (forall k, trace (exec env on_close k (after (handle_all registry env frames n fresh)))
             = []).
Proof.
  induction frames as [| data frames IH]; intros n Hall.
  - repeat split.
  - cbn [forallb] in Hall. apply andb_prop in Hall as [Hd Hall].
    apply negb_true_iff in Hd.
    cbn [handle_all after]. rewrite (not_creating_frame data n Hd). cbn [after calls].
    apply IH, Hall.
Qed.

Lemma handle_all_job_none (frames : list Frame) :
  forall (n : nat) (s : Session),
  job (after (handle_all registry env frames n s)) = None -> job s = None.
Proof.
  intros n s H. destruct (job s) as [j |] eqn:Hj; [| reflexivity].
  rewrite (job_preserved frames n s j Hj) in H. discriminate.
Qed.

(** X7.  Whatever frames a connection has received, as long as [job] is
    still [null] the other variables are at their initial values: there is
    no box, no test has been counted and [isCompiled] is [false]. *)
Theorem pristine_without_job (frames : list Frame) :
  forall n : nat,
  job (after (handle_all registry env frames n fresh)) = None ->
  after (handle_all registry env frames n fresh) = fresh.
Proof.
  induction frames as [| data frames IH]; intros n H; [reflexivity |].
  cbn [handle_all after] in *.
  destruct (creates_job registry data) eqn:Hc.
  - exfalso. apply handle_all_job_none in H.
    unfold creates_job in Hc. destruct data as [why | msg]; [discriminate |].
    destruct (kind_of_frame (Json msg)) as [[| | | |] |] eqn:Hk; try discriminate.
    destruct (get_job registry msg) as [j | e] eqn:Hg; [| discriminate].
    rewrite (init_creates n fresh msg j eq_refl Hk Hg) in H. discriminate.
  - rewrite (not_creating_frame data n Hc) in *. cbn [after calls] in *.
    apply IH, H.
Qed.

(** X8.  The ['message'] listener never leaves a frame without an answer:
    whatever the frame, the state of the session and the behaviour of the
    Job, it sends at least one message or closes the socket. *)
Theorem every_frame_answered (data : Frame) (n : nat) (s : Session) :
  answered (trace (handle registry env data n s)).
Proof.
  unfold answered.
  destruct (frame_cases data) as [[why ->] | [-> | (msg & k & -> & Hk)]].
  - left. discriminate.
  - left. discriminate.
  - unfold handle. rewrite (on_message_switch _ _ Hk). destruct k.
    + unfold init_case. cbn -[get_job].
      destruct (job s) as [j |]; [right; discriminate |]. cbn -[get_job].
      destruct (get_job registry msg) as [j | e]; [| left; discriminate]. cbn.
      destruct (env n (prime j)) as [b | e]; cbn; left; discriminate.
    + cbn. destruct (job s) as [j |]; [| right; discriminate].
      destruct (isCompiled s); [| left; discriminate]. cbn.
      destruct (env n (runTest j _ _ _ _)); left; discriminate.
    + cbn -[Z.of_nat]. destruct (job s) as [j |]; [| right; discriminate].
      destruct (isCompiled s); [| left; discriminate].
      destruct (prop msg "test_cases") as [| | | | | [| c cs] |];
        try (left; discriminate).
      cbn -[Z.of_nat]. destruct (env n (runBatched j _ _ _ _)); left; discriminate.
    + left. discriminate.
    + left. discriminate.
Qed.

(** X9.  When [job.runTest] rejects, the rejection is logged and sent as an
    [error] that carries the client's [test_id], or else the number the test
    would have got; the socket stays open and both counters stay as they
    were, so the failed test is not counted. *)
Theorem run_test_rejected
    (n : nat) (s : Session) (msg : JsVal) (j : Job) (e : Exn) :
  job s = Some j ->
  isCompiled s = true ->
  kind_of_frame (Json msg) = Some KRunTest ->
  env n (runTest j (js_or (prop msg "stdin") (VStr ""))
                   (js_or (prop msg "timeout") VNull)
                   (js_or (prop msg "cpu_time") VNull)
                   (js_or (prop msg "memory_limit") VNull)) = Rejected e ->
  handle registry env (Json msg) n s =
  {| trace := [Call (runTest j (js_or (prop msg "stdin") (VStr ""))
                               (js_or (prop msg "timeout") VNull)
                               (js_or (prop msg "cpu_time") VNull)
                               (js_or (prop msg "memory_limit") VNull));
               LogError (Lit "Error running test: " :: message e);
               Send (MError
                       (Some (if truthy (prop msg "test_id") then prop msg "test_id"
                              else VNum (testCount s + 1)))
                       (message e))];
     after := s; calls := S n; value := Resolved tt |}.
Proof.
  intros Hj Hc Hk Hr. unfold handle. rewrite (on_message_switch _ _ Hk).
  cbn. rewrite Hj, Hc. cbn. rewrite Hr. reflexivity.
Qed.

(** X10.  A [run_batch] whose [test_cases] is missing, is not an array or is
    empty is answered with an [error] before anything is run: no Job method
    is called and the session is unchanged.  A batch that the Job rejects is
    logged and answered with an [error], and the counters keep their
    values. *)
Theorem run_batch_refused (n : nat) (s : Session) (msg : JsVal) (j : Job) :
  job s = Some j ->
  isCompiled s = true ->
  kind_of_frame (Json msg) = Some KRunBatch ->
  ((forall c cs, prop msg "test_cases" <> VArr (c :: cs)) ->
   handle registry env (Json msg) n s =
   {| trace := [Send (MError None [Lit "test_cases array is required for run_batch"])];
      after := s; calls := n; value := Resolved tt |}) /\
  (forall c cs e,
     prop msg "test_cases" = VArr (c :: cs) ->
     env n (runBatched j (VArr (c :: cs))
                         (js_or (prop msg "timeout") VNull)
                         (js_or (prop msg "cpu_time") VNull)
                         (js_or (prop msg "memory_limit") VNull)) = Rejected e ->
     handle registry env (Json msg) n s =
     {| trace := [Call (runBatched j (VArr (c :: cs))
                                     (js_or (prop msg "timeout") VNull)
                                     (js_or (prop msg "cpu_time") VNull)
                                     (js_or (prop msg "memory_limit") VNull));
                  LogError (Lit "Error running batch: " :: message e);
                  Send (MError None (message e))];
        after := s; calls := S n; value := Resolved tt |}).
Proof.
  intros Hj Hc Hk. split.
  - intros Hbad. unfold handle. rewrite (on_message_switch _ _ Hk).
    cbn -[Z.of_nat]. rewrite Hj, Hc. cbn -[Z.of_nat].
    destruct (prop msg "test_cases") as [| | | | | [| c cs] |]; try reflexivity.
    exfalso. exact (Hbad c cs eq_refl).
  - intros c cs e Hcases He. unfold handle. rewrite (on_message_switch _ _ Hk).
    cbn -[Z.of_nat]. rewrite Hj, Hc. cbn -[Z.of_nat]. rewrite Hcases.
    cbn -[Z.of_nat]. rewrite He. reflexivity.
Qed.

Lemma results_sent_app (tr tr' : list Event) :
  results_sent (tr ++ tr') = results_sent tr + results_sent tr'.
Proof.
  induction tr as [| ev tr IH]; [reflexivity |].
  destruct ev as [m | | |]; cbn [app results_sent]; try exact IH.
  destruct m; rewrite ?IH; lia.
Qed.

Lemma time_sent_app (tr tr' : list Event) :
  time_sent (tr ++ tr') = time_sent tr + time_sent tr'.
Proof.
  induction tr as [| ev tr IH]; [reflexivity |].
  destruct ev as [m | | |]; cbn [app time_sent]; try exact IH.
  destruct m; rewrite ?IH; lia.
Qed.

(** Apart from [run_batch], a frame moves the counters by exactly what it
    sends as [result]. *)
Lemma counters_follow_results (data : Frame) (n : nat) (s : Session) :
  is_batch_frame data = false ->
  testCount (after (handle registry env data n s)) =
    testCount s + results_sent (trace (handle registry env data n s)) /\
  totalTime (after (handle registry env data n s)) =
    totalTime s + time_sent (trace (handle registry env data n s)).
Proof.
  intros Hb.
  destruct (frame_cases data) as [[why ->] | [-> | (msg & k & -> & Hk)]].
  - cbn. lia.
  - cbn. lia.
  - unfold is_batch_frame in Hb. rewrite Hk in Hb.
    unfold handle. rewrite (on_message_switch _ _ Hk). destruct k; try discriminate.
    + unfold init_case. cbn -[get_job].
      destruct (job s) as [j |]; [cbn; lia |]. cbn -[get_job].
      destruct (get_job registry msg) as [j | e]; [| cbn; lia]. cbn.
      destruct (env n (prime j)) as [b | e]; cbn.
      * destruct (env (S n) (compileOnly j b)) as [[[|] comp] | e]; cbn.
        -- lia.
        -- destruct (env (S (S n)) (cleanup j)) as [[] | e]; cbn; [lia |].
           destruct (env (S (S (S n))) (cleanup j)); cbn; lia.
        -- destruct (env (S (S n)) (cleanup j)); cbn; lia.
      * destruct (env (S n) (cleanup j)); cbn; lia.
    + cbn. destruct (job s) as [j |]; [| cbn; lia].
      destruct (isCompiled s); [| cbn; lia]. cbn.
      destruct (env n (runTest j _ _ _ _)); cbn; lia.
    + cbn. destruct (job s) as [j |]; [| cbn; lia]. cbn.
      destruct (env n (cleanup j)); cbn; lia.
    + cbn. lia.
Qed.

(** X11.  In a session that receives no [run_batch], the two counters are
    at every moment the number of [result] messages sent so far and the sum
    of the times those messages report (a missing time counting as 0); a
    [close] at that moment reports exactly these two numbers in [done].
    Tests whose run was rejected, refused frames and [init] do not count. *)
Theorem done_reports_results (frames : list Frame) (closing : JsVal) :
  forallb (fun data => negb (is_batch_frame data)) frames = true ->
  kind_of_frame (Json closing) = Some KClose ->
  let r := handle_all registry env frames 0%nat fresh in
  testCount (after r) = results_sent (trace r) /\
  totalTime (after r) = time_sent (trace r) /\
  exists tail,
    trace (handle registry env (Json closing) (calls r) (after r)) =
    Send (MDone (results_sent (trace r)) (time_sent (trace r))) :: tail.
Proof.
  intros Hall Hk r.
  assert (Hgen : forall fs n s,
             forallb (fun data => negb (is_batch_frame data)) fs = true ->
             testCount (after (handle_all registry env fs n s)) =
               testCount s + results_sent (trace (handle_all registry env fs n s)) /\
             totalTime (after (handle_all registry env fs n s)) =
               totalTime s + time_sent (trace (handle_all registry env fs n s))).
  { induction fs as [| data fs IH]; intros n s Hfs.
    - cbn. lia.
    - cbn [forallb] in Hfs. apply andb_prop in Hfs as [Hd Hfs].
      apply negb_true_iff in Hd.
      destruct (counters_follow_results data n s Hd) as [H1 H2].
      destruct (IH (calls (handle registry env data n s))
                   (after (handle registry env data n s)) Hfs) as [H3 H4].
      cbn [handle_all trace after]. rewrite results_sent_app, time_sent_app. lia. }
  destruct (Hgen frames 0%nat fresh Hall) as [H1 H2]. fold r in H1, H2.
  cbn [testCount totalTime fresh] in H1, H2.
  repeat split; [lia | lia |].
  unfold handle. rewrite (on_message_switch _ _ Hk). cbn.
  replace (results_sent (trace r)) with (testCount (after r)) by lia.
  replace (time_sent (trace r)) with (totalTime (after r)) by lia.
  destruct (job (after r)) as [j |]; cbn; eexists; reflexivity.
Qed.

Lemma compiled_before_runs_app (tr tr' : list Event) :
  forall seen,
  compiled_before_runs seen (tr ++ tr') =
  compiled_before_runs seen tr &&
  compiled_before_runs (fold_left (fun b ev => b || announces ev) tr seen) tr'.
Proof.
  induction tr as [| ev tr IH]; intros seen; [reflexivity |].
  cbn [app compiled_before_runs fold_left]. rewrite IH. apply andb_assoc.
Qed.

Ltac finish_order :=
  cbn -[Z.of_nat]; rewrite ?orb_false_r, ?orb_true_r;
  split; [reflexivity | solve [assumption | intros; congruence | auto]].

(** One frame keeps the order, and [isCompiled] is only ever [true] after
    the announcement. *)
Lemma compiled_before_runs_frame (data : Frame) (n : nat) (s : Session) (seen : bool) :
  (isCompiled s = true -> seen = true) ->
  compiled_before_runs seen (trace (handle registry env data n s)) = true /\
  (isCompiled (after (handle registry env data n s)) = true ->
   fold_left (fun b ev => b || announces ev)
             (trace (handle registry env data n s)) seen = true).
Proof.
  intros Hinv.
  destruct (frame_cases data) as [[why ->] | [-> | (msg & k & -> & Hk)]].
  - finish_order.
  - finish_order.
  - unfold handle. rewrite (on_message_switch _ _ Hk). destruct k.
    + unfold init_case. cbn -[get_job].
      destruct (job s) as [j |]; [finish_order |]. cbn -[get_job].
      destruct (get_job registry msg) as [j | e]; [| finish_order]. cbn.
      destruct (env n (prime j)) as [b | e]; cbn.
      * destruct (env (S n) (compileOnly j b)) as [[[|] comp] | e]; cbn.
        -- finish_order.
        -- destruct (env (S (S n)) (cleanup j)) as [[] | e]; cbn; [finish_order |].
           destruct (env (S (S (S n))) (cleanup j)); finish_order.
        -- destruct (env (S (S n)) (cleanup j)); finish_order.
      * destruct (env (S n) (cleanup j)); finish_order.
    + cbn. destruct (job s) as [j |]; [| finish_order].
      destruct (isCompiled s) eqn:Hc; [| finish_order].
      rewrite (Hinv eq_refl). cbn.
      destruct (env n (runTest j _ _ _ _)); finish_order.
    + cbn -[Z.of_nat]. destruct (job s) as [j |]; [| finish_order].
      destruct (isCompiled s) eqn:Hc; [| finish_order].
      rewrite (Hinv eq_refl).
      destruct (prop msg "test_cases") as [| | | | | [| c cs] |]; try finish_order.
      cbn -[Z.of_nat]. destruct (env n (runBatched j _ _ _ _)); finish_order.
    + cbn. destruct (job s) as [j |]; cbn; [| finish_order].
      destruct (env n (cleanup j)); finish_order.
    + finish_order.
Qed.

(** X12.  On a connection whose frames are handled one after the other, no
    test is ever run before the client has been told that the code
    compiled: every [job.runTest] and [job.runBatched] comes after a
    [compiled] message with [success: true]. *)
Theorem runs_only_after_compiled (frames : list Frame) :
  compiled_before_runs false (trace (handle_all registry env frames 0%nat fresh)) = true.
Proof.
  assert (Hgen : forall fs n s seen,
             (isCompiled s = true -> seen = true) ->
             compiled_before_runs seen (trace (handle_all registry env fs n s)) = true).
  { induction fs as [| data fs IH]; intros n s seen Hinv; [reflexivity |].
    destruct (compiled_before_runs_frame data n s seen Hinv) as [H1 H2].
    cbn [handle_all trace]. rewrite compiled_before_runs_app, H1. cbn [andb].
    apply IH, H2. }
  apply Hgen. discriminate.
Qed.

End Properties.

(** * Concrete sessions *)

(** C1 at a concrete session: one test of 10 ms, then a batch of two cases
    that took 7 ms, then [close].  The batch assigns the two counters, so
    [done] reports 2 tests and 7 ms; the running totals are 3 and 17. *)
Theorem batch_overwrites_totals :
  sent (judge Demo.registry Demo.env
          [Json Demo.init_python; Json (Demo.run_test []);
           Json (Demo.run_batch [VObj []; VObj []]); Json Demo.close]) =
  [MReady "python" "3.10.0" false;
   MCompiled true (VNum 0) (VStr "") (VStr "") VNull;
   MResult (VNum 1) (Demo.test_result 10);
   MBatchResult 2 (Demo.batch_result 7);
   MDone 2 7].
Proof. vm_compute. reflexivity. Qed.



(** C3 fails for a negative limit when the configured limit is not
    positive: with [run_memory_limit: -5] against a configured -1 the
    [init] goes through and the job is made. *)
Lemma negative_limit_accepted :
  let r := handle Demo.registry Demo.env
             (Json (Demo.init "python" [Demo.source "print(1)"]
                      [("run_memory_limit", VNum (-5))]))
             0%nat fresh in
  job (after r) <> None /\
  sent (trace r) = [MReady "python" "3.10.0" false;
                    MCompiled true (VNum 0) (VStr "") (VStr "") VNull] /\
  close_codes (trace r) = [].
Proof. vm_compute. repeat split; discriminate. Qed.

Lemma limits_validated_witness :
  exists e,
    handle Demo.registry Demo.env
      (Json (Demo.init "python" [Demo.source "print(1)"] [("run_timeout", VNum 5000)]))
      0%nat fresh =
    {| trace := [Send (MError None (message e)); CloseWs 4002 "Notified Error"];
       after := fresh; calls := 0%nat; value := Resolved tt |}.
Proof.
  apply (limits_validated Demo.registry Demo.env 0 fresh
           (Demo.init "python" [Demo.source "print(1)"] [("run_timeout", VNum 5000)])
           Timeout Run).
  - reflexivity.
  - reflexivity.
  - intros rt (lang & ver & Hl & Hv & Hr).
    cbn in Hl. injection Hl as <-. cbn in Hr. injection Hr as <-.
    split; [reflexivity | cbn; lia].
Defined.

(** C4 fails for [close]: before any [init] it is answered with [done] and
    the socket is closed with 4999. *)
Lemma close_before_init :
  let r := handle Demo.registry Demo.env (Json Demo.close) 0%nat fresh in
  ~ (close_codes (trace r) = [4003] /\ sent (trace r) = []).
Proof. vm_compute. intros [H _]. discriminate. Qed.

Lemma opening_commands_witness :
  handle Demo.registry Demo.env (Json (Demo.run_test [])) 0%nat fresh =
  {| trace := [CloseWs 4003 "Not yet initialized"];
     after := fresh; calls := 0%nat; value := Resolved tt |}.
Proof.
  apply (opening_commands Demo.registry Demo.env 0 fresh (Demo.run_test []) KRunTest).
  - reflexivity.
  - reflexivity.
  - discriminate.
Defined.

(** C5 fails for the ['file'] runtime: an [init] with [files: []] goes
    through and the job is made. *)
Lemma empty_files_accepted :
  let r := handle Demo.registry Demo.env (Json (Demo.init "file" [] [])) 0%nat fresh in
  job (after r) <> None /\
  sent (trace r) = [MReady "file" "0.0.1" false;
                    MCompiled true (VNum 0) (VStr "") (VStr "") VNull] /\
  close_codes (trace r) = [].
Proof. vm_compute. repeat split; discriminate. Qed.

Lemma files_validated_witness :
  exists e,
    handle Demo.registry Demo.env (Json (Demo.init "python" [] [])) 0%nat fresh =
    {| trace := [Send (MError None (message e)); CloseWs 4002 "Notified Error"];
       after := fresh; calls := 0%nat; value := Resolved tt |}.
Proof.
  apply (files_validated Demo.registry Demo.env 0 fresh (Demo.init "python" [] [])).
  - reflexivity.
  - reflexivity.
  - intros rt (lang & ver & Hl & Hv & Hr).
    cbn in Hl. injection Hl as <-. cbn in Hr. injection Hr as <-.
    discriminate.
Defined.





(** C8 fails when the client does not wait.  A [run_test] that arrives
    while the [init] listener is suspended in [job.prime()] is answered
    before [ready] is sent.  And two [run_test] frames that arrive back to
    back are both in [job.runTest] at once: the second call is made before
    the first result is sent, and if the second run settles first its
    result is sent first. *)
Lemma results_out_of_order :
  let first := Demo.run_test [("stdin", VStr "1"); ("test_id", VNum 1)] in
  let second := Demo.run_test [("stdin", VStr "2"); ("test_id", VNum 2)] in
  let early := [Arrives (Json Demo.init_python); Settles 0;
                Arrives (Json first); Settles 0; Settles 0]%nat in
  let both := [Arrives (Json Demo.init_python); Settles 0; Settles 0; Settles 0;
               Arrives (Json first); Arrives (Json second);
               Settles 1; Settles 0]%nat in
  sent (log (turns Demo.registry Demo.env start early)) =
    [MError None not_compiled; MReady "python" "3.10.0" false;
     MCompiled true (VNum 0) (VStr "") (VStr "") VNull] /\
  skipn 4 (log (turns Demo.registry Demo.env start both)) =
    [Call (runTest Demo.job_python (VStr "1") VNull VNull VNull);
     Call (runTest Demo.job_python (VStr "2") VNull VNull VNull);
     Send (MResult (VNum 2) (Demo.test_result 10));
     Send (MResult (VNum 1) (Demo.test_result 10))] /\
  log (turns Demo.registry Demo.env start both) <>
    trace (handle_all Demo.registry Demo.env (arrivals both) 0%nat fresh).
Proof. vm_compute. repeat split; discriminate. Qed.

Lemma serial_when_client_waits_witness :
  let ts := [Arrives (Json Demo.init_python); Settles 0; Settles 0; Settles 0;
             Arrives (Json (Demo.run_test [])); Settles 0;
             Arrives (Json Demo.close); Settles 0]%nat in
  log (turns Demo.registry Demo.env start ts) =
    trace (handle_all Demo.registry Demo.env (arrivals ts) 0%nat fresh) /\
  in_order None (log (turns Demo.registry Demo.env start ts)) = true.
Proof.
  apply (serial_when_client_waits Demo.registry Demo.env).
  - reflexivity.
  - reflexivity.
Defined.

Lemma close_reports_cleanup_error_witness :
  handle Demo.registry Demo.env_cleanup_fails (Json Demo.close) 2%nat Demo.ready =
  {| trace := [Send (MDone 0 0); Call (cleanup Demo.job_python);
               Send (MError None [Lit "rm failed"]); CloseWs 4002 "Notified Error"];
     after := Demo.ready; calls := 3%nat; value := Resolved tt |}.
Proof.
  apply (close_reports_cleanup_error Demo.registry Demo.env_cleanup_fails 2 Demo.ready
           Demo.close Demo.job_python (error [Lit "rm failed"])).
  - reflexivity.
  - reflexivity.
  - reflexivity.
Defined.


(** * The other routes *)

Ltac in_list := cbn; repeat (first [left; reflexivity | right]).

Section Routes.

Variable registry : string -> string -> option Runtime.
Variable answers : RouteEnv.

Local Open Scope routine_scope.

Lemma prefix_app (p s : string) : String.prefix p (p ++ s)%string = true.
Proof.
  induction p as [| a p IH]; cbn.
  - destruct s; reflexivity.
  - destruct (Ascii.ascii_dec a a) as [_ | Hne]; [exact IH | contradiction].
Qed.

(** X13.  The content-type middleware in front of [POST /execute]: a request
    whose content-type does not start with [application/json] (or has none)
    is answered 415 and goes no further, whatever its body, so nothing is
    validated and no Job method is called; with [application/json], alone
    or followed by parameters such as a charset, the request reaches the
    handler. *)
Theorem execute_needs_json (req : Request) (n : nat) :
  method req = "POST" ->
  (starts_with_json (content_type req) = false ->
   steps (rrun answers (post_execute registry req) n tt) =
   [Did (Respond 415 (MessageBody [Lit "requests must be of type application/json"]))]) /\
  (forall params,
     content_type req = Some ("application/json" ++ params)%string ->
     steps (rrun answers (post_execute registry req) n tt) =
     Did Next :: steps (rrun answers (execute_route registry (req_body req)) n tt)).
Proof.
  intros Hm. split.
  - intros Hct. unfold post_execute, content_type_gate. rewrite Hm, Hct. reflexivity.
  - intros params Hct. unfold post_execute, content_type_gate. rewrite Hm, Hct.
    unfold starts_with_json. rewrite prefix_app. reflexivity.
Qed.

(** [get_job] rejects: 400 with the rejection as body, and nothing else. *)
Lemma execute_rejected (body : JsVal) (e : Exn) (n : nat) :
  get_job_of registry body = Rejected e ->
  rrun answers (execute_route registry body) n tt =
  {| steps := [Did (Respond 400 (ErrorBody e))]; left := tt; entered := n;
     ended := Resolved tt |}.
Proof.
  intros Hg. unfold execute_route. cbn -[get_job_of]. rewrite Hg. reflexivity.
Qed.

(** The steps of a request that [get_job] accepts. *)
Lemma execute_steps (body : JsVal) (j : Job) (n : nat) :
  get_job_of registry body = Resolved j ->
  steps (rrun answers (execute_route registry body) n tt) =
  match answers n (job_prime j) with
  | Resolved box =>
      Entered (job_prime j) :: Entered (job_execute j box false) ::
      match answers (S n) (job_execute j box false) with
      | Resolved result => [Did (Respond 200 (ResultBody (default_run result)))]
      | Rejected e => [Did (LogErr (Lit "Error executing job: " :: message e));
                       Did (Respond 500 NoBody)]
      end ++
      Entered (job_cleanup j) ::
      match answers (S (S n)) (job_cleanup j) with
      | Resolved _ => []
      | Rejected e => [Did (LogErr (Lit "Error cleaning up job: " :: message e));
                       Did (Respond 500 NoBody)]
      end
  | Rejected e =>
      [Entered (job_prime j);
       Did (LogErr (Lit "Error executing job: " :: message e));
       Did (Respond 500 NoBody);
       Entered (job_cleanup j)] ++
      match answers (S n) (job_cleanup j) with
      | Resolved _ => []
      | Rejected e => [Did (LogErr (Lit "Error cleaning up job: " :: message e));
                       Did (Respond 500 NoBody)]
      end
  end.
Proof.
  intros Hg. unfold execute_route. cbn -[get_job_of]. rewrite Hg. cbn.
  destruct (answers n (job_prime j)) as [box | e]; cbn.
  - destruct (answers (S n) (job_execute j box false)) as [result | e]; cbn;
      destruct (answers (S (S n)) (job_cleanup j)); reflexivity.
  - destruct (answers (S n) (job_cleanup j)); reflexivity.
Qed.

(** X14.  [POST /execute] on a request that [get_job] accepts.  The first
    response the handler sends is 200 exactly when [prime] and [execute]
    both resolve, and 500 otherwise; it is sent before the [finally] block
    runs, so what [cleanup] does cannot change it: a rejecting [cleanup]
    only makes the handler try a second response, 500, on a request already
    answered.  [cleanup] is entered exactly once, after every other Job
    call, and [execute] is not entered when [prime] rejects. *)
Theorem execute_outcome (body : JsVal) (j : Job) (n : nat) :
  get_job_of registry body = Resolved j ->
  let tr := steps (rrun answers (execute_route registry body) n tt) in
  (exists first rest,
     responses tr = first :: rest /\
     (first = 200 <->
      exists box result,
        answers n (job_prime j) = Resolved box /\
        answers (S n) (job_execute j box false) = Resolved result) /\
     (first = 200 \/ first = 500) /\
     (rest = [] \/ rest = [500])) /\
  count_ops is_route_cleanup tr = 1%nat /\
  (exists before, ops_entered tr = before ++ [job_cleanup j]) /\
  ((exists e, answers n (job_prime j) = Rejected e) ->
   count_ops is_route_execute tr = 0%nat).
Proof.
  intros Hg tr. subst tr. rewrite (execute_steps body j n Hg).
  destruct (answers n (job_prime j)) as [box | e] eqn:Hp; cbn.
  - destruct (answers (S n) (job_execute j box false)) as [result | e] eqn:Hx; cbn;
      destruct (answers (S (S n)) (job_cleanup j)) as [[] | e'] eqn:Hc; cbn;
      (split; [| split; [reflexivity | split;
         [(exists [job_prime j; job_execute j box false]; reflexivity)
         | intros [e0 He0]; discriminate]]]);
      do 2 eexists; (split; [reflexivity |]); (split; [| auto]).
    + split; [intros _; exists box, result; split; [reflexivity | assumption]
             | reflexivity].
    + split; [intros _; exists box, result; split; [reflexivity | assumption]
             | reflexivity].
    + split; [discriminate |].
      intros (b & r & Hb & Hr). injection Hb as <-. congruence.
    + split; [discriminate |].
      intros (b & r & Hb & Hr). injection Hb as <-. congruence.
  - destruct (answers (S n) (job_cleanup j)) as [[] | e'] eqn:Hc; cbn;
      (split; [| split; [reflexivity | split;
         [(exists [job_prime j]; reflexivity) | reflexivity]]]);
      do 2 eexists; (split; [reflexivity |]); (split; [| auto]);
      (split; [discriminate | intros (b & r & Hb & Hr); discriminate]).
Qed.

Variable SIGNALS : list JsVal.

Lemma conn_kind_of_frame_json (msg : JsVal) (k : ConnKind) :
  conn_kind_of_frame (Json msg) = Some k -> conn_kind (prop msg "type") = k.
Proof.
  destruct msg; simpl; intros H; inversion H; reflexivity.
Qed.

(** The steps of an [init] on a fresh [/connect] connection that [get_job]
    accepts. *)
Lemma connect_init_steps (msg : JsVal) (j : Job) (n : nat) :
  conn_kind_of_frame (Json msg) = Some CInit ->
  get_job registry msg = Resolved j ->
  rrun answers (connect_message registry SIGNALS (Json msg)) n None =
  {| steps :=
       match answers n (job_prime j) with
       | Resolved box =>
           Entered (job_prime j) ::
           Did (WsSend (CRuntime (language (runtime j)) (version_raw (runtime j)))) ::
           Entered (job_execute j box true) ::
           match answers (S n) (job_execute j box true) with
           | Resolved _ =>
               Entered (job_cleanup j) ::
               match answers (S (S n)) (job_cleanup j) with
               | Resolved _ => [Did (WsClose 4999 "Job Completed")]
               | Rejected e => [Did (WsSend (CError (message e)));
                                Did (WsClose 4002 "Notified Error")]
               end
           | Rejected e =>
               Did (LogErr (Lit "Error cleaning up job: " :: message e)) ::
               Entered (job_cleanup j) ::
               match answers (S (S n)) (job_cleanup j) with
               | Resolved _ => [Did (WsSend (CError (message e)));
                                Did (WsClose 4002 "Notified Error")]
               | Rejected e' => [Did (WsSend (CError (message e')));
                                 Did (WsClose 4002 "Notified Error")]
               end
           end
       | Rejected e =>
           Entered (job_prime j) ::
           Did (LogErr (Lit "Error cleaning up job: " :: message e)) ::
           Entered (job_cleanup j) ::
           match answers (S n) (job_cleanup j) with
           | Resolved _ => [Did (WsSend (CError (message e)));
                            Did (WsClose 4002 "Notified Error")]
           | Rejected e' => [Did (WsSend (CError (message e')));
                             Did (WsClose 4002 "Notified Error")]
           end
       end;
     left := Some j;
     entered := match answers n (job_prime j) with
                | Resolved _ => S (S (S n))
                | Rejected _ => S (S n)
                end;
     ended := Resolved tt |}.
Proof.
  intros Hk Hg. pose proof (conn_kind_of_frame_json _ _ Hk) as Hk'.
  destruct msg; simpl in Hk; try discriminate;
    unfold connect_message; rewrite Hk'; cbn -[get_job]; rewrite Hg; cbn;
    (destruct (answers n (job_prime j)) as [box | e]; cbn;
     [ destruct (answers (S n) (job_execute j box true)) as [r | e]; cbn;
       destruct (answers (S (S n)) (job_cleanup j)) as [[] | e']; reflexivity
     | destruct (answers (S n) (job_cleanup j)) as [[] | e']; reflexivity ]).
Qed.

(** X15.  An [init] on a fresh [/connect] connection that [get_job]
    accepts: [cleanup] is entered exactly once, however [prime] and
    [execute] end, and [execute] is not entered when [prime] rejects.  The
    socket is closed once: with 4999 exactly when [prime], [execute] and
    [cleanup] all resolve, and otherwise with 4002 after an [error]
    message; when both [execute] (or [prime]) and [cleanup] reject, the
    error reported is the one of [cleanup]. *)
Theorem connect_init_outcome (msg : JsVal) (j : Job) (n : nat) :
  conn_kind_of_frame (Json msg) = Some CInit ->
  get_job registry msg = Resolved j ->
  let r := rrun answers (connect_message registry SIGNALS (Json msg)) n None in
  left r = Some j /\
  count_ops is_route_cleanup (steps r) = 1%nat /\
  ((exists e, answers n (job_prime j) = Rejected e) ->
   count_ops is_route_execute (steps r) = 0%nat) /\
  (ws_closes (steps r) = [4999] <->
   exists box result,
     answers n (job_prime j) = Resolved box /\
     answers (S n) (job_execute j box true) = Resolved result /\
     answers (S (S n)) (job_cleanup j) = Resolved tt) /\
  (ws_closes (steps r) = [4999] \/
   ws_closes (steps r) = [4002] /\
   exists e, In (Did (WsSend (CError (message e)))) (steps r)) /\
  (forall e', answers (entered r - 1)%nat (job_cleanup j) = Rejected e' ->
              In (Did (WsSend (CError (message e')))) (steps r)).
Proof.
  intros Hk Hg r. subst r. rewrite (connect_init_steps msg j n Hk Hg).
  cbn [steps left entered].
  destruct (answers n (job_prime j)) as [box | e] eqn:Hp.
  - destruct (answers (S n) (job_execute j box true)) as [result | e] eqn:Hx;
      destruct (answers (S (S n)) (job_cleanup j)) as [[] | e'] eqn:Hc;
      cbn; rewrite ?Nat.sub_0_r, ?Hc;
      (split; [reflexivity |]); (split; [reflexivity |]);
      (split; [intros [e0 He0]; discriminate |]).
    + split; [| split; [left; reflexivity | intros e0 He0; discriminate]].
      split; [intros _; exists box, result; auto | reflexivity].
    + split; [| split; [right; split; [reflexivity | exists e'; in_list]
                       | intros e0 He0; injection He0 as <-; in_list]].
      split; [discriminate |].
      intros (b & r0 & Hb & Hr & Hcl). discriminate.
    + split; [| split; [right; split; [reflexivity | exists e; in_list]
                       | intros e0 He0; discriminate]].
      split; [discriminate |].
      intros (b & r0 & Hb & Hr & Hcl). injection Hb as <-. congruence.
    + split; [| split; [right; split; [reflexivity | exists e'; in_list]
                       | intros e0 He0; injection He0 as <-; in_list]].
      split; [discriminate |].
      intros (b & r0 & Hb & Hr & Hcl). discriminate.
  - destruct (answers (S n) (job_cleanup j)) as [[] | e'] eqn:Hc;
      cbn; rewrite ?Nat.sub_0_r, ?Hc;
      (split; [reflexivity |]); (split; [reflexivity |]);
      (split; [reflexivity |]).
    + split; [| split; [right; split; [reflexivity | exists e; in_list]
                       | intros e0 He0; discriminate]].
      split; [discriminate |].
      intros (b & r0 & Hb & Hr & Hcl). discriminate.
    + split; [| split; [right; split; [reflexivity | exists e'; in_list]
                       | intros e0 He0; injection He0 as <-; in_list]].
      split; [discriminate |].
      intros (b & r0 & Hb & Hr & Hcl). discriminate.
Qed.

(** X16.  How [/connect] treats the frames that are not an accepted
    [init].  Before a job exists, [data] and [signal] only close the socket
    with 4003, whatever they carry.  With a job: [data] is forwarded to the
    bus as [stdin] when its [stream] is ['stdin'] and closes with 4004
    otherwise; [signal] is forwarded when [SIGNALS] includes it and closes
    with 4005 otherwise; an [init] closes with 4000.  A frame of any other
    type is ignored without a word, and none of these frames touches the
    job or calls it. *)
Theorem connect_dispatch (msg : JsVal) (k : ConnKind) (n : nat) (s : option Job) :
  conn_kind_of_frame (Json msg) = Some k ->
  (k = CInit -> s <> None) ->
  rrun answers (connect_message registry SIGNALS (Json msg)) n s =
  {| steps :=
       match k, s with
       | CNoArm, _ => []
       | CInit, _ => [Did (WsClose 4000 "Already Initialized")]
       | _, None => [Did (WsClose 4003 "Not yet initialized")]
       | CData, Some _ =>
           if same_value (prop msg "stream") (VStr "stdin")
           then [Did (Emit "stdin" (prop msg "data"))]
           else [Did (WsClose 4004 "Can only write to stdin")]
       | CSignalKind, Some _ =>
           if existsb (same_value (prop msg "signal")) SIGNALS
           then [Did (Emit "signal" (prop msg "signal"))]
           else [Did (WsClose 4005 "Invalid signal")]
       end;
     left := s; entered := n; ended := Resolved tt |}.
Proof.
  intros Hk Hinit. pose proof (conn_kind_of_frame_json _ _ Hk) as Hk'.
  destruct msg; simpl in Hk; try discriminate;
    unfold connect_message; rewrite Hk';
    (destruct k; cbn -[same_value existsb];
     [ destruct s; [reflexivity | exfalso; apply Hinit; reflexivity]
     | destruct s; [| reflexivity];
       match goal with |- context [same_value ?a ?b] =>
         destruct (same_value a b); reflexivity end
     | destruct s; [| reflexivity];
       match goal with |- context [existsb ?f ?l] =>
         destruct (existsb f l); reflexivity end
     | reflexivity ]).
Qed.

End Routes.

(** * The benchmark *)

(** X17.  The label [main] announces belongs to a fastest of the three
    times, and ties go to the later test: [/judge (batch)] whenever the
    batch time is minimal, [/judge (each)] when the judge time is minimal
    and the batch time is not, [/execute] only when it is strictly fastest. *)
Theorem winner_is_fastest (execute judge batch : Z) :
  (Bench.winner execute judge batch = "/judge (batch)" <->
   batch <= execute /\ batch <= judge) /\
  (Bench.winner execute judge batch = "/judge (each)" <->
   judge <= execute /\ judge < batch) /\
  (Bench.winner execute judge batch = "/execute" <->
   execute < judge /\ execute < batch).
Proof.
  unfold Bench.winner.
  destruct (Z.eqb_spec (Z.min execute (Z.min judge batch)) batch) as [Hb | Hb];
    destruct (Z.eqb_spec (Z.min execute (Z.min judge batch)) judge) as [Hj | Hj];
    cbv zeta; repeat split; intros; try discriminate; try lia.
Qed.

Section BenchmarkSession.

Variable registry : string -> string -> option Runtime.
Variable env : Env.
Variable cfg : Bench.Config.
Variable trim : string -> string.
Variable clock : nat -> Z.

Variable j : Job.
Variable b : Box.
Variable cr : CompileResult.t.

Hypothesis accepted : get_job registry (Bench.init_frame cfg) = Resolved j.
Hypothesis primed : env 0%nat (prime j) = Resolved b.
Hypothesis compiled_ok : env 1%nat (compileOnly j b) = Resolved cr.
Hypothesis compile_success : CompileResult.success cr = true.
Hypothesis runs :
  forall k stdin t c m,
  exists r, env k (runTest j stdin t c m) = Resolved r /\
            readable (TestResult.stdout r).

Lemma ids_upto_S (i : nat) : ids_upto (S i) = ids_upto i ++ [VNum (Z.of_nat i + 1)].
Proof. unfold ids_upto. rewrite seq_S, map_app. reflexivity. Qed.

Lemma firstn_S_nth {A} (l : list A) (i : nat) (x : A) :
  nth_error l i = Some x -> firstn (S i) l = firstn i l ++ [x].
Proof.
  revert i. induction l as [| y l IH]; intros [| i] H; try discriminate.
  - injection H as <-. reflexivity.
  - cbn in H. cbn [firstn app]. rewrite <- (IH i H). reflexivity.
Qed.

Lemma nth_error_past {A} (l : list A) (i : nat) :
  nth_error l i = None <-> (List.length l <= i)%nat.
Proof. apply nth_error_None. Qed.

Lemma heard_results_app (h h' : list OutMsg) :
  heard_results (h ++ h') = heard_results h ++ heard_results h'.
Proof.
  induction h as [| m h IH]; [reflexivity |].
  destruct m; cbn [app heard_results]; rewrite IH; reflexivity.
Qed.

Lemma judged_all_snoc (tcs : list Bench.TestCase) :
  forall (answers : list (JsVal * TestResult.t)) tc answer,
  List.length tcs = List.length answers ->
  judged_all trim (tcs ++ [tc]) (answers ++ [answer]) =
  judged_all trim tcs answers ++ [judged trim tc answer].
Proof.
  induction tcs as [| tc0 tcs IH]; intros [| a0 answers] tc answer Hlen;
    try discriminate; [reflexivity |].
  cbn in Hlen. injection Hlen as Hlen.
  cbn [app judged_all]. rewrite (IH answers tc answer Hlen). reflexivity.
Qed.

Lemma ids_upto_length (i : nat) : List.length (ids_upto i) = i.
Proof. unfold ids_upto. rewrite length_map, length_seq. reflexivity. Qed.

Lemma after_init :
  Bench.testCases cfg <> [] ->
  between cfg trim j 0 (Bench.serve registry env cfg trim clock (Bench.opening cfg)).
Proof.
  intros Hne. unfold Bench.serve, Bench.opening. cbn [Bench.to_server].
  cbn [Bench.server Bench.server_calls].
  rewrite (init_compiles registry env 0 fresh (Bench.init_frame cfg) j b cr
             eq_refl eq_refl accepted primed compiled_ok compile_success).
  cbn [trace after calls sent fold_left]. unfold compiled_message.
  rewrite compile_success. unfold ready_message.
  unfold Bench.hear at 2. cbn.
  unfold Bench.hear. cbn.
  destruct (Bench.testCases cfg) as [| tc tcs] eqn:Htc; [contradiction |].
  cbn. unfold between. cbn. rewrite Htc. repeat split; reflexivity.
Qed.

Lemma one_test (i : nat) (w : Bench.Wire) (tc : Bench.TestCase) :
  between cfg trim j i w ->
  nth_error (Bench.testCases cfg) i = Some tc ->
  between cfg trim j (S i) (Bench.serve registry env cfg trim clock w).
Proof.
  intros (Hjud & Hh & Hj & Hc & Hn & Hcur & Hids & Hexp & Hto & Hres & Hthr) Htc.
  rewrite Htc in Hto.
  destruct (runs (Bench.server_calls w)
                 (js_or (prop (Bench.run_test_frame tc i) "stdin") (VStr ""))
                 (js_or (prop (Bench.run_test_frame tc i) "timeout") VNull)
                 (js_or (prop (Bench.run_test_frame tc i) "cpu_time") VNull)
                 (js_or (prop (Bench.run_test_frame tc i) "memory_limit") VNull))
    as (r & Hr & Hread).
  assert (Hlen : List.length (firstn i (Bench.testCases cfg)) =
                 List.length (heard_results (Bench.heard w))).
  { rewrite <- (length_map fst (heard_results (Bench.heard w))), Hh, ids_upto_length.
    apply firstn_length_le. apply Nat.lt_le_incl.
    apply nth_error_Some. rewrite Htc. discriminate. }
  unfold Bench.serve. rewrite Hto.
  rewrite (run_test_accepted registry env (Bench.server_calls w) (Bench.server w)
             (Bench.run_test_frame tc i) j r Hj Hc eq_refl Hr).
  cbn [trace after calls sent fold_left].
  assert (Hid : js_or (prop (Bench.run_test_frame tc i) "test_id")
                      (VNum (testCount (Bench.server w) + 1)) = VNum (Z.of_nat i + 1)).
  { unfold js_or. cbn.
    destruct (Z.eqb_spec (Z.of_nat i + 1) 0); [lia | reflexivity]. }
  rewrite Hid.
  unfold Bench.hear. cbn [Bench.client Bench.heard Bench.to_server Bench.server
                           Bench.server_calls Bench.resolved Bench.thrown].
  unfold Bench.on_message.
  assert (Hentry :
            exists v,
              Bench.trimmed trim (TestResult.stdout r) = RRet v /\
              {| Bench.testId := VNum (Z.of_nat i + 1);
                 Bench.passed := Bench.agrees v (Bench.expected tc);
                 Bench.entry_expected := Bench.expected tc;
                 Bench.actual := v;
                 Bench.time := Bench.wire_time (TestResult.wall_time r) |} =
              judged trim tc (VNum (Z.of_nat i + 1), r)).
  { unfold judged, Bench.wire_time. cbn [fst snd].
    destruct Hread as [[s Hs] | [Hs | Hs]]; rewrite Hs; eexists;
      (split; [reflexivity |]); reflexivity. }
  destruct Hentry as (v & Hv & Hentry).
  assert (Hnew : Bench.results (Bench.client w) ++
                 [{| Bench.testId := VNum (Z.of_nat i + 1);
                     Bench.passed := Bench.agrees v (Bench.expected tc);
                     Bench.entry_expected := Bench.expected tc;
                     Bench.actual := v;
                     Bench.time := Bench.wire_time (TestResult.wall_time r) |}] =
                 judged_all trim (firstn (S i) (Bench.testCases cfg))
                   (heard_results (Bench.heard w ++ [MResult (VNum (Z.of_nat i + 1)) r]))).
  { rewrite heard_results_app, (firstn_S_nth _ _ _ Htc). cbn [heard_results].
    rewrite (judged_all_snoc _ _ _ _ Hlen), <- Hjud, Hentry. reflexivity. }
  assert (Hheard : map fst (heard_results
                              (Bench.heard w ++ [MResult (VNum (Z.of_nat i + 1)) r])) =
                   ids_upto (S i)).
  { rewrite heard_results_app, map_app, Hh, ids_upto_S. reflexivity. }
  cbn [rrun]. rewrite Hv. cbn [rbind]. rewrite Hcur, Htc.
  cbn -[nth_error Nat.ltb List.length Z.of_nat heard_results judged_all firstn].
  destruct (Nat.ltb_spec (S i) (List.length (Bench.testCases cfg))) as [Hlt | Hge].
  - destruct (nth_error (Bench.testCases cfg) (S i)) as [tc' |] eqn:Htc'.
    + unfold Bench.sendNextTest.
      cbn -[nth_error Nat.ltb List.length Z.of_nat heard_results judged_all firstn].
      rewrite Htc'.
      cbn -[nth_error Nat.ltb List.length Z.of_nat heard_results judged_all firstn].
      unfold between.
      cbn -[nth_error Nat.ltb List.length Z.of_nat firstn ids_upto heard_results
            judged_all].
      rewrite Htc'.
      split; [exact Hnew |]. split; [exact Hheard |].
      rewrite !map_app, Hids, Hexp, ids_upto_S, (firstn_S_nth _ _ _ Htc), map_app.
      rewrite Hres, Hthr. repeat split; auto. lia.
    + apply nth_error_past in Htc'. lia.
  - assert (Hnone : nth_error (Bench.testCases cfg) (S i) = None)
      by (apply nth_error_past; exact Hge).
    cbn -[nth_error Nat.ltb List.length Z.of_nat heard_results judged_all firstn].
    unfold between.
    cbn -[nth_error Nat.ltb List.length Z.of_nat firstn ids_upto heard_results
          judged_all].
    rewrite Hnone.
    split; [exact Hnew |]. split; [exact Hheard |].
    rewrite !map_app, Hids, Hexp, ids_upto_S, (firstn_S_nth _ _ _ Htc), map_app.
    rewrite Hres, Hthr. repeat split; auto. lia.
Qed.

Lemma exchange_plus (m m' : nat) (w : Bench.Wire) :
  Bench.exchange registry env cfg trim clock (m + m') w =
  Bench.exchange registry env cfg trim clock m'
    (Bench.exchange registry env cfg trim clock m w).
Proof.
  revert w. induction m as [| m IH]; intros w; [reflexivity |].
  cbn [Nat.add Bench.exchange]. apply IH.
Qed.

Lemma all_tests (m : nat) :
  forall (i : nat) (w : Bench.Wire),
  between cfg trim j i w ->
  (i + m = List.length (Bench.testCases cfg))%nat ->
  between cfg trim j (List.length (Bench.testCases cfg))
          (Bench.exchange registry env cfg trim clock m w).
Proof.
  induction m as [| m IH]; intros i w Hinv Hlen.
  - rewrite Nat.add_0_r in Hlen. subst i. exact Hinv.
  - destruct (nth_error (Bench.testCases cfg) i) as [tc |] eqn:Htc.
    + cbn [Bench.exchange]. apply (IH (S i)); [| lia].
      apply (one_test i w tc Hinv Htc).
    + apply nth_error_past in Htc. lia.
Qed.

Lemma after_close (w : Bench.Wire) :
  between cfg trim j (List.length (Bench.testCases cfg)) w ->
  let w' := Bench.serve registry env cfg trim clock w in
  Bench.to_server w' = [] /\
  Bench.thrown w' = false /\
  Bench.client w' = Bench.client w /\
  Bench.server w' = Bench.server w /\
  heard_results (Bench.heard w') = heard_results (Bench.heard w) /\
  In (MDone (testCount (Bench.server w)) (totalTime (Bench.server w))) (Bench.heard w') /\
  exists t,
    Bench.resolved w' =
    [Bench.Judged t (Bench.results (Bench.client w))
       (List.length (filter Bench.passed (Bench.results (Bench.client w))))
       (Bench.compileTime (Bench.client w))].
Proof.
  intros (Hjud & Hh & Hj & Hc & Hn & Hcur & Hids & Hexp & Hto & Hres & Hthr).
  assert (Hnone : nth_error (Bench.testCases cfg) (List.length (Bench.testCases cfg)) = None)
    by (apply nth_error_past; lia).
  rewrite Hnone in Hto. unfold Bench.serve. rewrite Hto.
  unfold handle.
  rewrite (on_message_switch registry Bench.close_frame KClose eq_refl).
  cbn -[List.length]. rewrite Hj. cbn -[List.length].
  destruct (env (Bench.server_calls w) (cleanup j)) as [[] | e];
    cbn -[List.length heard_results]; unfold Bench.hear;
    cbn -[List.length heard_results];
    rewrite Hres, Hthr; cbn -[List.length heard_results];
    do 4 (split; [reflexivity |]);
    (split; [rewrite !heard_results_app; cbn; rewrite ?app_nil_r; reflexivity |]);
    (split; [| eexists; reflexivity]);
    apply in_or_app;
    first [right; solve [in_list] | left; apply in_or_app; right; solve [in_list]].
Qed.

(** X18.  The benchmark client against the [/judge] listener, with a
    non-empty list of test cases and a Job on which [prime], the compile and
    every run succeed, each run with a [stdout] that is a string or absent.
    After the [init], one [run_test] per case and the [close], nothing is
    left to handle and no client listener has thrown.  The server has sent
    one [result] per case, numbered 1, 2, ..., has counted as many tests
    and says so in [done].  The client holds one entry per case, in the
    order of the cases: the entry of a case has the [test_id] and time of
    that case's [result], the trimmed [stdout] as [actual], the expected
    output of that case, and [passed] exactly when the two are equal.  The
    promise is resolved once, with those entries and the number of them
    that passed. *)
Theorem benchmark_session :
  Bench.testCases cfg <> [] ->
  let k := List.length (Bench.testCases cfg) in
  let w := Bench.exchange registry env cfg trim clock (1 + k + 1) (Bench.opening cfg) in
  Bench.to_server w = [] /\
  Bench.thrown w = false /\
  Bench.results (Bench.client w) =
    judged_all trim (Bench.testCases cfg) (heard_results (Bench.heard w)) /\
  map fst (heard_results (Bench.heard w)) = ids_upto k /\
  map Bench.testId (Bench.results (Bench.client w)) = ids_upto k /\
  map Bench.entry_expected (Bench.results (Bench.client w)) =
    map Bench.expected (Bench.testCases cfg) /\
  testCount (Bench.server w) = Z.of_nat k /\
  In (MDone (Z.of_nat k) (totalTime (Bench.server w))) (Bench.heard w) /\
  exists t compileTime,
    Bench.resolved w =
      [Bench.Judged t (Bench.results (Bench.client w))
         (List.length (filter Bench.passed (Bench.results (Bench.client w))))
         compileTime].
Proof.
  intros Hne k w. subst w.
  rewrite exchange_plus. cbn [Bench.exchange Nat.add].
  set (w0 := Bench.serve registry env cfg trim clock (Bench.opening cfg)).
  pose proof (after_init Hne) as H0. fold w0 in H0.
  pose proof (all_tests k 0 w0 H0 eq_refl) as Hk. fold k in Hk.
  set (wk := Bench.exchange registry env cfg trim clock k w0) in *.
  destruct (after_close wk Hk) as (Hto & Hthr & Hcl & Hsv & Hhr & Hdone & t & Hres).
  destruct Hk as (Hjud & Hh & Hj & Hc & Hn & Hcur & Hids & Hexp & _).
  rewrite Hcl, Hsv, Hhr. rewrite Hn in Hdone.
  unfold k in Hjud, Hexp. rewrite firstn_all in Hjud, Hexp.
  split; [exact Hto |]. split; [exact Hthr |]. split; [exact Hjud |].
  split; [exact Hh |]. split; [exact Hids |]. split; [exact Hexp |].
  split; [exact Hn |]. split; [exact Hdone |].
  do 2 eexists. exact Hres.
Qed.

End BenchmarkSession.

(** * Instances on the small installation *)

Lemma job_limits_witness :
  job_limit Sample.job_limited Timeout Run = VNum 2000 /\
  job_limit Sample.job_limited Timeout Compile = VNum 0 /\
  job_limit Sample.job_limited CpuTime Run = VNum 3000.
Proof.
  split; [| split].
  - exact (proj1 (job_limits Demo.registry Sample.limited Sample.job_limited
                    Timeout Run eq_refl)).
  - exact (proj1 (job_limits Demo.registry Sample.limited Sample.job_limited
                    Timeout Compile eq_refl)).
  - exact (proj1 (job_limits Demo.registry Sample.limited Sample.job_limited
                    CpuTime Run eq_refl)).
Defined.

Lemma check_contents_first_witness :
  exists (i : nat) (f : JsVal),
    nth_error [Demo.source "a"; VObj [("name", VStr "b")]; VNull] i = Some f /\
    ~ has_content f /\
    (forall i' f', (i' < i)%nat ->
       nth_error [Demo.source "a"; VObj [("name", VStr "b")]; VNull] i' = Some f' ->
       has_content f') /\
    (error [Lit "files["; Interp (VNum 1); Lit "].content is required as a string"] =
     error [Lit "files["; Interp (VNum (0 + Z.of_nat i));
            Lit "].content is required as a string"] \/
     (f = VNull \/ f = VUndef) /\
     error [Lit "files["; Interp (VNum 1); Lit "].content is required as a string"] =
     error [Lit "Cannot read properties of null (reading 'content')"]).
Proof.
  exact (check_contents_first [Demo.source "a"; VObj [("name", VStr "b")]; VNull] 0
           (error [Lit "files["; Interp (VNum 1);
                   Lit "].content is required as a string"]) eq_refl).
Defined.

Lemma second_init_refused_witness :
  handle Demo.registry Demo.env (Json Demo.init_c) 2%nat Demo.ready =
  {| trace := [CloseWs 4000 "Already Initialized"];
     after := Demo.ready; calls := 2%nat; value := Resolved tt |}.
Proof.
  exact (second_init_refused Demo.registry Demo.env 2 Demo.ready Demo.init_c
           Demo.job_python eq_refl eq_refl).
Defined.

Lemma job_kept_witness :
  job (after (handle_all Demo.registry Demo.env_cleanup_fails
                [Json Demo.close; Json (Demo.run_test []); Json Demo.init_c]
                2%nat Demo.ready)) = Some Demo.job_python.
Proof.
  exact (job_kept Demo.registry Demo.env_cleanup_fails
           [Json Demo.close; Json (Demo.run_test []); Json Demo.init_c]
           2 Demo.ready Demo.job_python eq_refl).
Defined.

Lemma no_job_without_init_witness :
  after (handle_all Demo.registry Demo.env Sample.idle_frames 0%nat fresh) = fresh.
Proof.
  exact (proj1 (no_job_without_init Demo.registry Demo.env Sample.idle_frames
                  0%nat eq_refl)).
Defined.

Lemma pristine_without_job_witness :
  after (handle_all Demo.registry Demo.env_prime_fails Sample.idle_frames 0%nat fresh)
  = fresh.
Proof.
  exact (pristine_without_job Demo.registry Demo.env_prime_fails Sample.idle_frames
           0%nat eq_refl).
Defined.

Lemma run_test_rejected_witness :
  handle Demo.registry Sample.env_run_fails
    (Json (Demo.run_test [("stdin", VStr "5")])) 2%nat Demo.ready =
  {| trace := [Call (runTest Demo.job_python (VStr "5") VNull VNull VNull);
               LogError [Lit "Error running test: "; Lit "spawn failed"];
               Send (MError (Some (VNum 1)) [Lit "spawn failed"])];
     after := Demo.ready; calls := 3%nat; value := Resolved tt |}.
Proof.
  exact (run_test_rejected Demo.registry Sample.env_run_fails 2 Demo.ready
           (Demo.run_test [("stdin", VStr "5")]) Demo.job_python
           (error [Lit "spawn failed"]) eq_refl eq_refl eq_refl eq_refl).
Defined.

Lemma run_batch_refused_witness :
  handle Demo.registry Demo.env (Json (Demo.run_batch [])) 2%nat Demo.ready =
  {| trace := [Send (MError None [Lit "test_cases array is required for run_batch"])];
     after := Demo.ready; calls := 2%nat; value := Resolved tt |}.
Proof.
  apply (proj1 (run_batch_refused Demo.registry Demo.env 2 Demo.ready
                  (Demo.run_batch []) Demo.job_python eq_refl eq_refl eq_refl)).
  intros c cs. discriminate.
Defined.

Lemma done_reports_results_witness :
  let r := handle_all Demo.registry Demo.env
             [Json Demo.init_python; Json (Demo.run_test []); Json (Demo.run_test [])]
             0%nat fresh in
  testCount (after r) = results_sent (trace r) /\
  totalTime (after r) = time_sent (trace r) /\
  exists tail,
    trace (handle Demo.registry Demo.env (Json Demo.close) (calls r) (after r)) =
    Send (MDone (results_sent (trace r)) (time_sent (trace r))) :: tail.
Proof.
  exact (done_reports_results Demo.registry Demo.env
           [Json Demo.init_python; Json (Demo.run_test []); Json (Demo.run_test [])]
           Demo.close eq_refl eq_refl).
Defined.

Lemma execute_needs_json_witness :
  steps (rrun Sample.answers
           (post_execute Demo.registry (Sample.post (Some "text/plain") Demo.init_python))
           0%nat tt) =
  [Did (Respond 415 (MessageBody [Lit "requests must be of type application/json"]))].
Proof.
  apply (proj1 (execute_needs_json Demo.registry Sample.answers
                  (Sample.post (Some "text/plain") Demo.init_python) 0 eq_refl)).
  reflexivity.
Defined.

Lemma execute_outcome_witness :
  responses (steps (rrun Sample.answers (execute_route Demo.registry Demo.init_python)
                      0%nat tt)) = [200] /\
  count_ops is_route_cleanup
    (steps (rrun Sample.answers (execute_route Demo.registry Demo.init_python) 0%nat tt))
  = 1%nat.
Proof.
  destruct (execute_outcome Demo.registry Sample.answers Demo.init_python
              Demo.job_python 0 eq_refl) as (_ & Hc & _).
  split; [reflexivity | exact Hc].
Defined.

Lemma connect_init_outcome_witness :
  let r := rrun Sample.answers
             (connect_message Demo.registry Sample.SIGNALS (Json Demo.init_python))
             0%nat None in
  left r = Some Demo.job_python /\
  count_ops is_route_cleanup (steps r) = 1%nat.
Proof.
  destruct (connect_init_outcome Demo.registry Sample.answers Sample.SIGNALS
              Demo.init_python Demo.job_python 0 eq_refl eq_refl) as (Hl & Hc & _).
  split; [exact Hl | exact Hc].
Defined.

Lemma connect_dispatch_witness :
  rrun Sample.answers
    (connect_message Demo.registry Sample.SIGNALS
       (Json (VObj [("type", VStr "signal"); ("signal", VStr "SIGUSR7")])))
    3%nat (Some Demo.job_python) =
  {| steps := [Did (WsClose 4005 "Invalid signal")];
     left := Some Demo.job_python; entered := 3%nat; ended := Resolved tt |}.
Proof.
  apply (connect_dispatch Demo.registry Sample.answers Sample.SIGNALS
           (VObj [("type", VStr "signal"); ("signal", VStr "SIGUSR7")]) CSignalKind
           3 (Some Demo.job_python)).
  - reflexivity.
  - discriminate.
Defined.

Lemma benchmark_session_witness :
  let w := Bench.exchange Demo.registry Demo.env Bench.config (fun s => s)
             (fun n => Z.of_nat n) (1 + 20 + 1) (Bench.opening Bench.config) in
  Bench.to_server w = [] /\
  Bench.thrown w = false /\
  Bench.results (Bench.client w) =
    judged_all (fun s => s) (Bench.testCases Bench.config)
      (heard_results (Bench.heard w)) /\
  map Bench.testId (Bench.results (Bench.client w)) = ids_upto 20 /\
  testCount (Bench.server w) = 20.
Proof.
  assert (Hruns : forall k stdin t c m,
             exists r, Demo.env k (runTest Sample.job_bench stdin t c m) = Resolved r /\
                       readable (TestResult.stdout r)).
  { intros k stdin t c m. eexists. split; [reflexivity |]. left. eexists. reflexivity. }
  assert (Hne : Bench.testCases Bench.config <> []) by discriminate.
  destruct (benchmark_session Demo.registry Demo.env Bench.config (fun s => s)
              (fun n => Z.of_nat n) Sample.job_bench (VStr "box") Demo.compiled_ok
              eq_refl eq_refl eq_refl eq_refl Hruns Hne)
    as (H1 & H2 & H3 & _ & H4 & _ & H5 & _).
  split; [exact H1 | split; [exact H2 | split; [exact H3 | split; [exact H4 | exact H5]]]].
Defined.
